(** * location-fetcher: the tiled fetcher and the location data handler

    A shallow embedding of [services/fetcher.py] (class [OverpassFetcher]),
    [services/data_handler.py] (class [LocationDataHandler]) and the
    [analyze_example] entry point of [main.py].

    Conventions of the embedding:
    - a Python value that came out of [json.load] is a [json] tree; a dict is
      an association list in insertion order, its keys distinct;
    - a raised exception is the left injection of [res]; code that touches
      the disk, the network or the clock is a state transformer [prog];
    - the [json] module itself is not part of the program: decoding and
      parsing a text, and [json.dumps], are the section variables
      [json_parse] and [json_dumps];
    - a directory is the sequence of its regular files, in the order in which
      the operating system enumerates them, file names being plain names;
    - [print] and the [tqdm] progress bar only produce console text and are
      left out. *)

From stdpp Require Import gmap strings list pretty.
From Stdlib Require Import ZArith Lia.

(** ** Exceptions *)

Inductive exn : Type :=
| FileNotFoundError (msg : string)
| JSONDecodeError
| UnicodeDecodeError
| KeyError (key : string)
| TypeError
| AttributeError (attr : string)
| ValueError (msg : string)
| RequestException (kind : string).

(** [except requests.exceptions.RequestException] *)
Definition isinstance_RequestException (e : exn) : bool :=
  match e with RequestException _ => true | _ => false end.

(** [except json.JSONDecodeError] *)
Definition isinstance_JSONDecodeError (e : exn) : bool :=
  match e with JSONDecodeError => true | _ => false end.

(** [except Exception]: every exception of the model is an [Exception]. *)
Definition isinstance_Exception (e : exn) : bool := true.

Abbreviation res := (sum exn).

Definition bindR {A B : Type} (m : res A) (k : A → res B) : res B :=
  match m with
  | inl e => inl e
  | inr a => k a
  end.

Notation "x <- m ;; k" := (bindR m (fun x => k))
  (at level 100, m at next level, right associativity,
   format "'[v' x  <-  m  ;;  '/' k ']'").

(** ** Values produced by [json.load] *)

#[warnings="-register-all"]
Inductive json : Type :=
| JNull
| JBool (b : bool)
| JInt (n : Z)
| JFloat (mantissa exponent : Z)   (* the float written mantissa * 10^exponent *)
| JStr (s : string)
| JArr (items : list json)
| JObj (fields : list (string * json)).

Fixpoint dict_lookup (key : string) (fields : list (string * json)) : option json :=
  match fields with
  | [] => None
  | (k, v) :: rest => if String.eqb key k then Some v else dict_lookup key rest
  end.

Definition is_substring (needle hay : string) : bool :=
  match String.index 0 needle hay with
  | Some _ => true
  | None => false
  end.

Definition json_is_str (key : string) (v : json) : bool :=
  match v with
  | JStr s => String.eqb key s
  | _ => false
  end.

(** [key in v], for a [str] key. *)
Definition py_contains (key : string) (v : json) : res bool :=
  match v with
  | JObj fields => inr (bool_decide (is_Some (dict_lookup key fields)))
  | JArr items => inr (existsb (json_is_str key) items)
  | JStr s => inr (is_substring key s)
  | _ => inl TypeError
  end.

(** [v[key]], for a [str] key. *)
Definition py_getitem (v : json) (key : string) : res json :=
  match v with
  | JObj fields =>
      match dict_lookup key fields with
      | Some x => inr x
      | None => inl (KeyError key)
      end
  | _ => inl TypeError
  end.

(** [v.get(key, default)]: only a dict has the method. *)
Definition py_get (v : json) (key : string) (default : json) : res json :=
  match v with
  | JObj fields =>
      match dict_lookup key fields with
      | Some x => inr x
      | None => inr default
      end
  | _ => inl (AttributeError "get")
  end.

(** [len(v)] *)
Definition py_len (v : json) : res Z :=
  match v with
  | JArr items => inr (Z.of_nat (length items))
  | JObj fields => inr (Z.of_nat (length fields))
  | JStr s => inr (Z.of_nat (String.length s))
  | _ => inl TypeError
  end.

(** The sequence [for x in v] runs over. *)
Definition py_iter (v : json) : res (list json) :=
  match v with
  | JArr items => inr items
  | JObj fields => inr (map (λ kv, JStr kv.1) fields)
  | JStr s => inr (map (λ c, JStr (String c EmptyString)) (String.list_ascii_of_string s))
  | _ => inl TypeError
  end.

(** [[elem for elem in items if cond(elem)]]; [cond] may raise. *)
Fixpoint comprehension (cond : json → res bool) (items : list json) : res (list json) :=
  match items with
  | [] => inr []
  | elem :: rest =>
      b <- cond elem ;;
      kept <- comprehension cond rest ;;
      inr (if b then elem :: kept else kept)
  end.

(** [range(n)] *)
Definition range (n : Z) : list Z := map Z.of_nat (seq 0 (Z.to_nat n)).

(** ** Strings *)

Definition dot : Ascii.ascii := Ascii.ascii_of_nat 46.
Definition newline : string := String (Ascii.ascii_of_nat 10) EmptyString.
Definition dquote : string := String (Ascii.ascii_of_nat 34) EmptyString.

(** [Some p] when [s] is [p ++ "." ++ ext] with no dot in [ext]. *)
Fixpoint before_last_dot (s : string) : option string :=
  match s with
  | EmptyString => None
  | String c rest =>
      match before_last_dot rest with
      | Some p => Some (String c p)
      | None => if Ascii.eqb c dot then Some EmptyString else None
      end
  end.

(** [s.rsplit('.', 1)[0]] *)
Definition rsplit_dot_head (s : string) : string :=
  default s (before_last_dot s).

Fixpoint ends_with (suffix s : string) : bool :=
  String.eqb suffix s ||
  match s with
  | EmptyString => false
  | String _ rest => ends_with suffix rest
  end.

(** [repr] of a list of plain strings: ['a', 'b'] *)
Definition repr_str (s : string) : string := "'" +:+ s +:+ "'".

Fixpoint join (sep : string) (l : list string) : string :=
  match l with
  | [] => EmptyString
  | [x] => x
  | x :: rest => x +:+ sep +:+ join sep rest
  end.

Definition repr_str_list (l : list string) : string :=
  "[" +:+ join ", " (map repr_str l) +:+ "]".

(** ** The file system *)

Abbreviation directory := (list (string * string)).
Abbreviation filesystem := (gmap string (list (string * string))).

Definition listdir (fs : filesystem) (d : string) : directory :=
  default [] (fs !! d).

Fixpoint dir_read (name : string) (d : directory) : option string :=
  match d with
  | [] => None
  | (n, text) :: rest => if String.eqb name n then Some text else dir_read name rest
  end.

(** [open(path, 'w')] then [write]: an existing file is overwritten where it
    stands, a new one is added to the directory. *)
Fixpoint dir_write (name text : string) (d : directory) : directory :=
  match d with
  | [] => [(name, text)]
  | (n, t) :: rest =>
      if String.eqb name n then (n, text) :: rest
      else (n, t) :: dir_write name text rest
  end.

Definition fs_read (fs : filesystem) (d name : string) : option string :=
  dir_read name (listdir fs d).

Definition fs_write (fs : filesystem) (d name text : string) : filesystem :=
  <[d := dir_write name text (listdir fs d)]> fs.

(** [Path(d).glob("*.json")] *)
Definition glob_json (fs : filesystem) (d : string) : directory :=
  List.filter (λ f, ends_with ".json" f.1) (listdir fs d).

(** ** Programs with state and exceptions *)

Definition prog (S A : Type) : Type := S → res A * S.

Definition ret {S A : Type} (a : A) : prog S A := λ s, (inr a, s).

Definition raise {S A : Type} (e : exn) : prog S A := λ s, (inl e, s).

Definition bind {S A B : Type} (m : prog S A) (k : A → prog S B) : prog S B :=
  λ s, match m s with
       | (inl e, s') => (inl e, s')
       | (inr a, s') => k a s'
       end.

Definition lift {S A : Type} (r : res A) : prog S A := λ s, (r, s).

Notation "x <~ m ;; k" := (bind m (fun x => k))
  (at level 100, m at next level, right associativity,
   format "'[v' x  <~  m  ;;  '/' k ']'").

(** What decoding bytes as UTF-8 and parsing the text as JSON ends in: the
    document, [json.JSONDecodeError] for a text that is not JSON, or
    [UnicodeDecodeError] for bytes that are not UTF-8. *)
Inductive parse_result : Type :=
| Parsed (data : json)
| NotJSON
| NotUTF8.

(** ** Data of the two classes *)

(** A [pathlib.Path], held as the text it prints as: [str(path)], which is
    also what an f-string shows of it. *)
Definition Path : Type := string.

(** [LocationDataHandler]: the attributes [self.raw_data_dir] and
    [self.filtered_data_dir], the two [Path] objects that [__init__] builds
    from its arguments; [__init__] also creates the directories, and a
    directory without files reads as the empty one. *)
Record LocationDataHandler : Type := {
  raw_data_dir : Path;
  filtered_data_dir : Path
}.

(** The attributes a [LocationDataHandler] has besides those of [object]:
    its two fields and the methods of the class body, which has no base
    class and no [__getattr__]. *)
Definition LocationDataHandler_attributes : list string :=
  [ "raw_data_dir"; "filtered_data_dir"; "__init__"; "load_data";
    "save_filtered_data"; "filter_named_locations";
    "filter_unnamed_locations"; "list_raw_files"; "list_filtered_files";
    "count_objects"; "print_object_counts" ].

(** [handler.<name>] *)
Definition handler_getattr (name : string) : res string :=
  if existsb (String.eqb name) LocationDataHandler_attributes
  then inr name
  else inl (AttributeError name).

(** One entry of the dict [count_objects] returns. *)
Record dir_counts : Type := {
  total_objects : Z;
  files : gmap string Z
}.

Record counts : Type := {
  raw_data : dir_counts;
  filtered_data : dir_counts
}.

(** A sub-area: (min_lat, min_lon, max_lat, max_lon). Every literal of the
    configuration is a whole number of degrees, kept as that number. *)
Abbreviation tile := (Z * Z * Z * Z)%type.

Record area : Type := {
  bounds : tile;
  subareas : list tile
}.

Record OverpassFetcher : Type := {
  cache_dir : string;
  areas : list (string * area)
}.

(** What one [requests.post] ... [iter_content] exchange ends in: a
    [RequestException] (connection error, timeout, bad status from
    [raise_for_status], broken stream), or the whole body. *)
Inductive reply : Type :=
| Failed (kind : string)
| Body (content : string).

(** The world of the fetcher: what the service answers to the n-th request
    ever sent (given its query), the requests sent and the delays slept so
    far, and the disk. *)
Record world : Type := {
  net : nat → string → reply;
  sent : list string;
  slept : list Z;
  disk : filesystem
}.

(** ** Sample data used by the examples below *)

(** A compact printer standing in for [json.dumps] in the examples. *)
Fixpoint show_json (j : json) : string :=
  match j with
  | JNull => "null"
  | JBool true => "true"
  | JBool false => "false"
  | JInt n => pretty n
  | JFloat m e => pretty m +:+ "e" +:+ pretty e
  | JStr s => dquote +:+ s +:+ dquote
  | JArr items => "[" +:+ join ", " (map show_json items) +:+ "]"
  | JObj fields =>
      "{" +:+ join ", " (map (λ kv, let '(k, v) := kv in
                                  dquote +:+ k +:+ dquote +:+ ": " +:+ show_json v)
                           fields) +:+ "}"
  end.

Definition sample_dumps (indent : option Z) (j : json) : string :=
  match indent with
  | None => show_json j
  | Some n => "indent " +:+ pretty n +:+ newline +:+ show_json j
  end.

Definition node (id : Z) (tags : option (list (string * json))) : json :=
  JObj ([ ("type", JStr "node"); ("id", JInt id) ]
        ++ match tags with
           | Some t => [ ("tags", JObj t) ]
           | None => []
           end).

(** Five elements, three of them named. *)
Definition five_elements : list json :=
  [ node 1 (Some [ ("name", JStr "Tuomiokirkko"); ("religion", JStr "christian") ]);
    node 2 None;
    node 3 (Some [ ("name", JStr "Temppeliaukio") ]);
    node 4 (Some [ ("religion", JStr "muslim") ]);
    node 5 (Some [ ("name", JStr "Uspenski") ]) ].

Definition five_doc : json :=
  JObj [ ("version", JFloat 6 (-1)); ("generator", JStr "Overpass API");
         ("elements", JArr five_elements) ].

Definition three_doc : json :=
  JObj [ ("version", JFloat 6 (-1)); ("generator", JStr "Overpass API");
         ("elements", JArr [ node 1 None; node 2 None; node 3 None ]) ].

Definition tile_doc (ids : list Z) : json :=
  JObj [ ("elements", JArr (map (λ i, node i None) ids)) ].

Definition no_elements_doc : json :=
  JObj [ ("version", JFloat 6 (-1)); ("generator", JStr "Overpass API") ].

(** Ten elements: four with a non-empty name, one with an empty name. *)
Definition ten_doc : json :=
  JObj [ ("version", JFloat 6 (-1)); ("generator", JStr "Overpass API");
         ("elements",
          JArr [ node 1 (Some [ ("name", JStr "Meilahti") ]);
                 node 2 None;
                 node 3 (Some [ ("name", JStr "Jorvi") ]);
                 node 4 (Some [ ("name", JStr EmptyString) ]);
                 node 5 None;
                 node 6 (Some [ ("name", JStr "Peijas") ]);
                 node 7 (Some [ ("amenity", JStr "hospital") ]);
                 node 8 None;
                 node 9 (Some [ ("name", JStr "Malmi") ]);
                 node 10 None ]) ].

Definition sample_docs : list json :=
  [ five_doc; three_doc; ten_doc; no_elements_doc;
    tile_doc [1; 2]; tile_doc [3]; tile_doc [4; 5] ]%Z.

(** A parser for the examples: it reads back the sample documents and takes
    every other text for malformed. *)
Definition sample_loads (text : string) : option json :=
  List.find (λ doc, String.eqb text (show_json doc)) sample_docs.

(** A raw-data directory with the five-element and the ten-element file. *)
Definition raw_disk : filesystem :=
  <["data_cache" := [ ("five.json", show_json five_doc);
                      ("ten.json", show_json ten_doc) ]]> ∅.

(** A raw-data directory with one valid file of three elements and one file
    that is not JSON. *)
Definition broken_disk : filesystem :=
  <["data_cache" := [ ("three.json", show_json three_doc);
                      ("broken.json", "{oops") ]]> ∅.

(** The same with a file holding an object without "elements". *)
Definition headers_disk : filesystem :=
  <["data_cache" := [ ("three.json", show_json three_doc);
                      ("header.json", show_json no_elements_doc) ]]> ∅.

(** A service that answers the first request, fails the next three, and
    answers the two after them. *)
Definition flaky_net (n : nat) (query : string) : reply :=
  match n with
  | 0 => Body (show_json (tile_doc [1; 2]%Z))
  | 1 | 2 | 3 => Failed "ConnectionError"
  | 4 => Body (show_json (tile_doc [3]%Z))
  | 5 => Body (show_json (tile_doc [4; 5]%Z))
  | _ => Failed "Timeout"
  end%nat.

Definition flaky_world : world :=
  {| net := flaky_net; sent := []; slept := []; disk := ∅ |}.

(** A service that fails twice and then answers. *)
Definition third_time_net (n : nat) (query : string) : reply :=
  match n with
  | 0 | 1 => Failed "Timeout"
  | _ => Body (show_json (tile_doc [3]%Z))
  end%nat.

Definition third_time_world : world :=
  {| net := third_time_net; sent := []; slept := []; disk := ∅ |}.

(** A service that always answers with a page that is not JSON, and one
    that never answers. *)
Definition busy_world : world :=
  {| net := λ _ _, Body "<html>busy</html>"; sent := []; slept := []; disk := ∅ |}.

Definition down_world : world :=
  {| net := λ _ _, Failed "ConnectionError"; sent := []; slept := []; disk := ∅ |}.


(** Further sample data. A result set whose second element is a number. *)
Definition odd_doc : json :=
  JObj [ ("version", JFloat 6 (-1)); ("generator", JStr "Overpass API");
         ("elements", JArr [ node 1 (Some [ ("name", JStr "Kamppi") ]); JInt 5 ]) ].

Definition odd_disk : filesystem :=
  <["data_cache" := [ ("odd.json", show_json odd_doc);
                      ("header.json", show_json no_elements_doc) ]]> ∅.

(** The document [filter_named_locations] makes of the five-element file. *)
Definition five_named_doc : json :=
  JObj [ ("version", JFloat 6 (-1));
         ("generator", JStr "Filtered Data");
         ("original_file", JStr "five.json");
         ("filter_type", JStr "named_only");
         ("original_count", JInt 5);
         ("filtered_count", JInt 3);
         ("elements",
          JArr [ node 1 (Some [ ("name", JStr "Tuomiokirkko");
                                ("religion", JStr "christian") ]);
                 node 3 (Some [ ("name", JStr "Temppeliaukio") ]);
                 node 5 (Some [ ("name", JStr "Uspenski") ]) ]) ].

(** The parser of the examples, also reading [odd_doc] and reading back the
    indented dump of [five_named_doc]. *)
Definition more_loads (text : string) : option json :=
  if String.eqb text (show_json odd_doc) then Some odd_doc
  else if String.eqb text (sample_dumps (Some 2%Z) five_named_doc)
       then Some five_named_doc
       else sample_loads text.

(** Bytes that are not UTF-8: "caf" and a lone byte 233. *)
Definition latin1_bytes : string :=
  "caf" +:+ String (Ascii.ascii_of_nat 233) EmptyString.

(** The two parsers as [json_parse]: they take [latin1_bytes] for bytes
    that are not UTF-8 and every other text they do not read for a text
    that is not JSON. *)
Definition sample_parse (text : string) : parse_result :=
  match sample_loads text with
  | Some data => Parsed data
  | None => if String.eqb text latin1_bytes then NotUTF8 else NotJSON
  end.

Definition more_parse (text : string) : parse_result :=
  match more_loads text with
  | Some data => Parsed data
  | None => if String.eqb text latin1_bytes then NotUTF8 else NotJSON
  end.


(** A service that answers every request with the same two elements. *)
Definition steady_world : world :=
  {| net := λ _ _, Body (show_json (tile_doc [1; 2]%Z));
     sent := []; slept := []; disk := ∅ |}.

Section Program.

(** The [json] parser on the bytes of a file or of a body. *)
Variable json_parse : string → parse_result.

(** [json.loads]: [None] when no document comes out. *)
Definition json_loads (text : string) : option json :=
  match json_parse text with
  | Parsed data => Some data
  | NotJSON | NotUTF8 => None
  end.

(** [json.dumps(obj, indent=...)]; [json.dump(obj, f, indent=...)] writes
    this string to [f]. *)
Variable json_dumps : option Z → json → string.

(** [json.loads(content)] on the body of a reply; its failure is reported
    as [json.JSONDecodeError] (for a body that is not UTF-8 it is
    [UnicodeDecodeError]; no handler of the fetcher tells the two apart). *)
Definition json_load (text : string) : res json :=
  match json_loads text with
  | Some data => inr data
  | None => inl JSONDecodeError
  end.

(** [open(path, 'r', encoding='utf-8')] and [json.load(f)] on an existing
    file: reading raises [UnicodeDecodeError] when the bytes are not UTF-8,
    parsing raises [json.JSONDecodeError] when the text is not JSON. *)
Definition json_load_file (text : string) : res json :=
  match json_parse text with
  | Parsed data => inr data
  | NotJSON => inl JSONDecodeError
  | NotUTF8 => inl UnicodeDecodeError
  end.

(** ** services/data_handler.py *)

Definition load_data (self : LocationDataHandler) (filename : string)
  : prog filesystem json :=
  λ fs,
    match fs_read fs (raw_data_dir self) filename with
    | None =>
        (inl (FileNotFoundError
                ("File " +:+ filename +:+ " not found in " +:+ raw_data_dir self)),
         fs)
    | Some text => (json_load_file text, fs)
    end.

Definition save_filtered_data (self : LocationDataHandler) (data : json)
    (original_filename suffix : string) : prog filesystem string :=
  let base_name := rsplit_dot_head original_filename in
  let new_filename := base_name +:+ "_" +:+ suffix +:+ ".json" in
  λ fs,
    (inr new_filename,
     fs_write fs (filtered_data_dir self) new_filename (json_dumps (Some 2%Z) data)).

(** ['tags' in elem and 'name' in elem['tags']] *)
Definition named_cond (elem : json) : res bool :=
  has_tags <- py_contains "tags" elem ;;
  if has_tags then
    tags <- py_getitem elem "tags" ;;
    py_contains "name" tags
  else inr false.

(** ['tags' not in elem or 'name' not in elem['tags']] *)
Definition unnamed_cond (elem : json) : res bool :=
  has_tags <- py_contains "tags" elem ;;
  if negb has_tags then inr true
  else
    tags <- py_getitem elem "tags" ;;
    has_name <- py_contains "name" tags ;;
    inr (negb has_name).

(** The dict both filters build. *)
Definition filtered_header (version : json) (filename filter_type : string)
    (original_count : Z) (filtered_elements : list json) : json :=
  JObj [ ("version", version);
         ("generator", JStr "Filtered Data");
         ("original_file", JStr filename);
         ("filter_type", JStr filter_type);
         ("original_count", JInt original_count);
         ("filtered_count", JInt (Z.of_nat (length filtered_elements)));
         ("elements", JArr filtered_elements) ].

Definition filter_named_locations (self : LocationDataHandler) (filename : string)
  : prog filesystem string :=
  data <~ load_data self filename ;;
  elements <~ lift (py_getitem data "elements") ;;
  original_count <~ lift (py_len elements) ;;
  items <~ lift (py_iter elements) ;;
  filtered_elements <~ lift (comprehension named_cond items) ;;
  version <~ lift (py_get data "version" (JFloat 6 (-1))) ;;
  let filtered_data :=
    filtered_header version filename "named_only" original_count filtered_elements in
  new_filename <~ save_filtered_data self filtered_data filename "named_only" ;;
  ret new_filename.

Definition filter_unnamed_locations (self : LocationDataHandler) (filename : string)
  : prog filesystem string :=
  data <~ load_data self filename ;;
  elements <~ lift (py_getitem data "elements") ;;
  original_count <~ lift (py_len elements) ;;
  items <~ lift (py_iter elements) ;;
  filtered_elements <~ lift (comprehension unnamed_cond items) ;;
  version <~ lift (py_get data "version" (JFloat 6 (-1))) ;;
  let filtered_data :=
    filtered_header version filename "unnamed_only" original_count filtered_elements in
  new_filename <~ save_filtered_data self filtered_data filename "unnamed_only" ;;
  ret new_filename.

Definition list_raw_files (self : LocationDataHandler) (fs : filesystem) : list string :=
  map fst (glob_json fs (raw_data_dir self)).

Definition list_filtered_files (self : LocationDataHandler) (fs : filesystem)
  : list string :=
  map fst (glob_json fs (filtered_data_dir self)).

(** The body of the [try] in [count_objects], up to [num_objects]. *)
Definition count_file (text : string) : res Z :=
  data <- json_load_file text ;;
  elements <- py_get data "elements" (JArr []) ;;
  py_len elements.

(** One turn of the [for file in ... glob("*.json")] loop: the two updates
    of the [try], or the one of [except json.JSONDecodeError]. *)
Definition count_step (c : dir_counts) (file : string * string) : res dir_counts :=
  match count_file file.2 with
  | inr num_objects =>
      inr {| total_objects := total_objects c + num_objects;
             files := <[file.1 := num_objects]> (files c) |}
  | inl e =>
      if isinstance_JSONDecodeError e
      then inr {| total_objects := total_objects c;
                  files := <[file.1 := 0%Z]> (files c) |}
      else inl e
  end.

Fixpoint count_loop (c : dir_counts) (listing : directory) : res dir_counts :=
  match listing with
  | [] => inr c
  | file :: rest =>
      c' <- count_step c file ;;
      count_loop c' rest
  end.

Definition no_counts : dir_counts := {| total_objects := 0; files := ∅ |}.

(** [count_objects] only reads the disk. *)
Definition count_objects (self : LocationDataHandler) (fs : filesystem) : res counts :=
  raw <- count_loop no_counts (glob_json fs (raw_data_dir self)) ;;
  filtered <- count_loop no_counts (glob_json fs (filtered_data_dir self)) ;;
  inr {| raw_data := raw; filtered_data := filtered |}.

(** ** main.py *)

(** [LocationDataHandler()] *)
Definition default_handler : LocationDataHandler :=
  {| raw_data_dir := "data_cache"; filtered_data_dir := "filtered_data" |}.

(** [analyze_example]: the two method look-ups come before their calls; the
    statements after them only print. *)
Definition analyze_example (filename : string) : prog filesystem unit :=
  let handler := default_handler in
  data <~ load_data handler filename ;;
  get_statistics <~ lift (handler_getattr "get_statistics") ;;
  filter_by_tags <~ lift (handler_getattr "filter_by_tags") ;;
  ret tt.

(** ** services/fetcher.py *)

(** [OverpassFetcher(cache_dir)]: the region table of [__init__]. *)
Definition new_fetcher (cache_dir : string) : OverpassFetcher :=
  {| cache_dir := cache_dir;
     areas :=
       [ ("northern_europe",
          {| bounds := (55, 4, 71, 32);
             subareas := [ (55, 4, 63, 18); (63, 4, 71, 18);
                           (55, 18, 63, 32); (63, 18, 71, 32) ] |});
         ("central_europe",
          {| bounds := (45, 6, 55, 24);
             subareas := [ (45, 6, 50, 15); (50, 6, 55, 15);
                           (45, 15, 50, 24); (50, 15, 55, 24) ] |});
         ("southern_europe",
          {| bounds := (35, -10, 45, 28);
             subareas := [ (35, -10, 40, 9); (40, -10, 45, 9);
                           (35, 9, 40, 28); (40, 9, 45, 28) ] |}) ]%Z |}.

Fixpoint areas_lookup (area_name : string) (table : list (string * area)) : option area :=
  match table with
  | [] => None
  | (k, a) :: rest => if String.eqb area_name k then Some a else areas_lookup area_name rest
  end.

Definition get_subareas (self : OverpassFetcher) (area_name : string) : res (list tile) :=
  match areas_lookup area_name (areas self) with
  | None =>
      inl (ValueError ("Unknown area: " +:+ area_name +:+ ". Available areas: "
                       +:+ repr_str_list (map fst (areas self))))
  | Some a => inr (subareas a)
  end.

Definition get_tag_key (node_type : string) : string :=
  if String.eqb node_type "place_of_worship" then "amenity"
  else if String.eqb node_type "police" then "amenity"
  else if String.eqb node_type "park" then "leisure"
  else if String.eqb node_type "school" then "amenity"
  else if String.eqb node_type "hospital" then "amenity"
  else if String.eqb node_type "restaurant" then "amenity"
  else node_type.

Definition get_tag_value (node_type : string) : string :=
  if String.eqb node_type "place_of_worship" then "place_of_worship"
  else if String.eqb node_type "police" then "police"
  else if String.eqb node_type "park" then "park"
  else if String.eqb node_type "school" then "school"
  else if String.eqb node_type "hospital" then "hospital"
  else if String.eqb node_type "restaurant" then "restaurant"
  else node_type.

(** How an f-string prints a float that is a whole number of degrees. *)
Definition fmt_float (degrees : Z) : string := pretty degrees +:+ ".0".

Definition build_query (node_type : string) (bounds : tile) : string :=
  let '(min_lat, min_lon, max_lat, max_lon) := bounds in
  let selector :=
    "[" +:+ dquote +:+ get_tag_key node_type +:+ dquote +:+ "="
        +:+ dquote +:+ get_tag_value node_type +:+ dquote +:+ "]" +:+ newline in
  let box :=
    "                (" +:+ fmt_float min_lat +:+ "," +:+ fmt_float min_lon +:+ ","
        +:+ fmt_float max_lat +:+ "," +:+ fmt_float max_lon +:+ ");" +:+ newline in
  newline
  +:+ "            [out:json][timeout:300];" +:+ newline
  +:+ "            (" +:+ newline
  +:+ "              node" +:+ selector +:+ box
  +:+ "              way" +:+ selector +:+ box
  +:+ "              relation" +:+ selector +:+ box
  +:+ "            );" +:+ newline
  +:+ "            out body;" +:+ newline
  +:+ "            >;" +:+ newline
  +:+ "            out skel qt;" +:+ newline
  +:+ "        ".

(** The [try] body of [fetch_with_progress]: post the query, check the
    status, read the body to its end, parse it. *)
Definition send_request (query : string) : prog world json :=
  λ w,
    let w' := {| net := net w; sent := sent w ++ [query];
                 slept := slept w; disk := disk w |} in
    match net w (length (sent w)) query with
    | Failed kind => (inl (RequestException kind), w')
    | Body content => (json_load content, w')
    end.

(** [time.sleep(delay)] *)
Definition sleep (delay : Z) : prog world unit :=
  λ w,
    if (delay <? 0)%Z
    then (inl (ValueError "sleep length must be non-negative"), w)
    else (inr tt, {| net := net w; sent := sent w;
                     slept := slept w ++ [delay]; disk := disk w |}).

(** The [for attempt in range(retries)] loop, over the attempts left. *)
Fixpoint fetch_attempts (query : string) (retries delay : Z) (attempts : list Z)
  : prog world json :=
  match attempts with
  | [] => ret JNull
  | attempt :: rest =>
      λ w,
        match send_request query w with
        | (inr data, w') => (inr data, w')
        | (inl e, w') =>
            if isinstance_RequestException e then
              if (attempt <? retries - 1)%Z
              then (_ <~ sleep delay ;; fetch_attempts query retries delay rest) w'
              else (inl e, w')
            else (inl e, w')
        end
  end.

Definition fetch_with_progress (query : string) (retries delay : Z) : prog world json :=
  fetch_attempts query retries delay (range retries).

(** The defaults [retries=3], [delay=5]. *)
Definition default_retries : Z := 3.
Definition default_delay : Z := 5.

(** The [try] body of the loop of [fetch_data]: what one sub-area adds. *)
Definition fetch_subarea (node_type : string) (subarea : tile) : prog world (list json) :=
  let query := build_query node_type subarea in
  data <~ fetch_with_progress query default_retries default_delay ;;
  elements <~ lift (py_get data "elements" (JArr [])) ;;
  lift (py_iter elements).

(** The [for idx, subarea in enumerate(subareas, 1)] loop; [except
    Exception: continue] drops the sub-area. *)
Fixpoint fetch_subareas (node_type : string) (todo : list tile) (all_elements : list json)
  : prog world (list json) :=
  match todo with
  | [] => ret all_elements
  | subarea :: rest =>
      λ w,
        match fetch_subarea node_type subarea w with
        | (inr elements, w') =>
            fetch_subareas node_type rest (all_elements ++ elements) w'
        | (inl e, w') =>
            if isinstance_Exception e
            then fetch_subareas node_type rest all_elements w'
            else (inl e, w')
        end
  end.

(** The name of the cache file inside [cache_dir]; [today] is
    [datetime.now().strftime('%Y%m%d')]. *)
Definition cache_file_name (node_type area_name today : string) : string :=
  node_type +:+ "_" +:+ area_name +:+ "_" +:+ today +:+ ".json".

Definition combined_data (all_elements : list json) : json :=
  JObj [ ("version", JFloat 6 (-1));
         ("generator", JStr "Overpass API");
         ("elements", JArr all_elements) ].

Definition write_cache (self : OverpassFetcher) (name text : string) : prog world unit :=
  λ w, (inr tt, {| net := net w; sent := sent w; slept := slept w;
                   disk := fs_write (disk w) (cache_dir self) name text |}).

Definition fetch_data (self : OverpassFetcher) (today node_type area_name : string)
  : prog world string :=
  let cache_file := cache_file_name node_type area_name today in
  λ w,
    match fs_read (disk w) (cache_dir self) cache_file with
    | Some text => (inr text, w)
    | None =>
        (subareas <~ lift (get_subareas self area_name) ;;
         all_elements <~ fetch_subareas node_type subareas [] ;;
         _ <~ write_cache self cache_file (json_dumps None (combined_data all_elements)) ;;
         ret (json_dumps None (combined_data all_elements))) w
    end.

(** ** The data model of the specification *)

(** An element as the specification describes it: a record whose optional
    [tags] field is a mapping. *)
Definition well_formed_element (elem : json) : bool :=
  match elem with
  | JObj fields =>
      match dict_lookup "tags" fields with
      | None => true
      | Some (JObj _) => true
      | Some _ => false
      end
  | _ => false
  end.

(** "possesses a tag mapping that includes a name key" *)
Definition has_name_tag (elem : json) : bool :=
  match elem with
  | JObj fields =>
      match dict_lookup "tags" fields with
      | Some (JObj tags) => bool_decide (is_Some (dict_lookup "name" tags))
      | _ => false
      end
  | _ => false
  end.

(** What the condition of [filter_named_locations] decides for an element
    on which it can be evaluated. *)
Definition keeps (elem : json) : bool :=
  match named_cond elem with
  | inr b => b
  | inl _ => false
  end.

(** ** Vocabulary of the statements *)

(** A count report with a zero entry for [name] added to the part of the
    directory [d]. *)
Definition with_zero (name : string) (c : dir_counts) : dir_counts :=
  {| total_objects := total_objects c; files := <[name := 0%Z]> (files c) |}.

Definition record_zero (self : LocationDataHandler) (d name : string) (c : counts)
  : counts :=
  {| raw_data :=
       if String.eqb d (raw_data_dir self) then with_zero name (raw_data c)
       else raw_data c;
     filtered_data :=
       if String.eqb d (filtered_data_dir self) then with_zero name (filtered_data c)
       else filtered_data c |}.

(** The world after [n] requests with [query] were sent and [k] delays slept. *)
Definition after_attempts (w : world) (query : string) (n k : nat) (delay : Z) : world :=
  {| net := net w;
     sent := sent w ++ replicate n query;
     slept := slept w ++ replicate k delay;
     disk := disk w |}.

(** The replies to the next [n] requests with [query] are all failures. *)
Definition next_replies_fail (w : world) (query : string) (n : nat) : Prop :=
  ∀ i, (i < n)%nat → ∃ kind, net w (length (sent w) + i)%nat query = Failed kind.


(** ** services/data_handler.py and main.py, continued *)

(** [print_object_counts]: what it prints is the report of [count_objects];
    it returns nothing. *)
Definition print_object_counts (self : LocationDataHandler) : prog filesystem unit :=
  λ fs, (c <- count_objects self fs ;; inr tt, fs).

(** The [__main__] block of main.py. *)
Definition main_script : prog filesystem unit :=
  let handler := default_handler in
  named_file <~ filter_named_locations handler "hospital_northern_europe_20250224.json" ;;
  unnamed_file <~ filter_unnamed_locations handler "hospital_northern_europe_20250224.json" ;;
  print_object_counts handler.


(** ** Vocabulary of the further statements *)

(** What a file is worth in the report: the length of its "elements", and 0
    when its turn of the loop raises. *)
Definition file_count (text : string) : Z :=
  match count_file text with
  | inr n => n
  | inl _ => 0%Z
  end.

Definition sum_counts (listing : directory) : Z :=
  foldr (λ file acc, (file_count file.2 + acc)%Z) 0%Z listing.

(** The files [count_objects] can count: a UTF-8 text that is not JSON, and
    an object whose "elements", when present, is a list, an object or a
    string. *)
Definition countable (text : string) : bool :=
  match json_parse text with
  | NotJSON => true
  | NotUTF8 => false
  | Parsed (JObj fields) =>
      match dict_lookup "elements" fields with
      | None => true
      | Some (JArr _) | Some (JObj _) | Some (JStr _) => true
      | Some _ => false
      end
  | Parsed _ => false
  end.

(** [r] is the report of the files of [listing]: the total is the sum of
    their counts and is not negative, a name that is not listed has no
    entry, and (file names being distinct) a listed file has its count as
    its entry. *)
Definition reports (listing : directory) (r : dir_counts) : Prop :=
  total_objects r = sum_counts listing ∧
  (0 ≤ total_objects r)%Z ∧
  (∀ name, name ∉ listing.*1 → files r !! name = None) ∧
  (NoDup listing.*1 →
   ∀ name text, (name, text) ∈ listing → files r !! name = Some (file_count text)).


(** What the body of a reply adds to [all_elements], or the exception that
    drops the sub-area. *)
Definition tile_elements (content : string) : res (list json) :=
  data <- json_load content ;;
  elements <- py_get data "elements" (JArr []) ;;
  py_iter elements.

(** From the [n]-th request on, the service answers the query of each
    sub-area of [tiles] at once, with a body that adds the elements listed
    at the same place in [found]. *)
Fixpoint answered (service : nat → string → reply) (n : nat) (node_type : string)
    (tiles : list tile) (found : list (list json)) : Prop :=
  match tiles, found with
  | [], [] => True
  | subarea :: tiles', elements :: found' =>
      (∃ content,
         service n (build_query node_type subarea) = Body content ∧
         tile_elements content = inr elements) ∧
      answered service (S n) node_type tiles' found'
  | _, _ => False
  end.

(** Rectangles in whole degrees: area, containment, and whether two of them
    share more than a border. *)
Definition tile_area (t : tile) : Z :=
  let '(min_lat, min_lon, max_lat, max_lon) := t in
  ((max_lat - min_lat) * (max_lon - min_lon))%Z.

Definition tile_inside (outer inner : tile) : bool :=
  let '(o_min_lat, o_min_lon, o_max_lat, o_max_lon) := outer in
  let '(min_lat, min_lon, max_lat, max_lon) := inner in
  ((o_min_lat <=? min_lat) && (min_lat <? max_lat) && (max_lat <=? o_max_lat)
   && (o_min_lon <=? min_lon) && (min_lon <? max_lon) && (max_lon <=? o_max_lon))%Z.

Definition tiles_overlap (t u : tile) : bool :=
  let '(t_min_lat, t_min_lon, t_max_lat, t_max_lon) := t in
  let '(u_min_lat, u_min_lon, u_max_lat, u_max_lon) := u in
  ((t_min_lat <? u_max_lat) && (u_min_lat <? t_max_lat)
   && (t_min_lon <? u_max_lon) && (u_min_lon <? t_max_lon))%Z.

Fixpoint pairwise_disjoint (tiles : list tile) : bool :=
  match tiles with
  | [] => true
  | t :: rest => forallb (λ u, negb (tiles_overlap t u)) rest && pairwise_disjoint rest
  end.

(** * Properties *)

(** A file from which [json.loads] gets a document is loaded as that
    document. *)
Lemma json_load_file_parsed text data :
  json_loads text = Some data → json_load_file text = inr data.
Proof.
  unfold json_loads, json_load_file.
  destruct (json_parse text); intros Hload; by simplify_eq.
Qed.

(** ** The two filters *)

Lemma named_cond_well_formed elem :
  well_formed_element elem = true → named_cond elem = inr (has_name_tag elem).
Proof.
  destruct elem as [| | | | |items|fields]; try discriminate.
  unfold named_cond; simpl.
  destruct (dict_lookup "tags" fields) as [t|] eqn:Ht; simpl; [|done].
  destruct t; try discriminate. done.
Qed.

Lemma unnamed_cond_well_formed elem :
  well_formed_element elem = true → unnamed_cond elem = inr (negb (has_name_tag elem)).
Proof.
  destruct elem as [| | | | |items|fields]; try discriminate.
  unfold unnamed_cond; simpl.
  destruct (dict_lookup "tags" fields) as [t|] eqn:Ht; simpl; [|done].
  destruct t; try discriminate. done.
Qed.

(** On every value, also where they raise, the two conditions are each
    other's negation. *)
Lemma unnamed_cond_complement elem :
  unnamed_cond elem = (b <- named_cond elem ;; inr (negb b)).
Proof.
  unfold unnamed_cond, named_cond.
  destruct (py_contains "tags" elem) as [e|[|]]; simpl; try done.
  destruct (py_getitem elem "tags") as [e|tags]; simpl; done.
Qed.

Lemma comprehension_filter cond (p : json → bool) items :
  Forall (λ elem, cond elem = inr (p elem)) items →
  comprehension cond items = inr (List.filter p items).
Proof.
  induction 1 as [|elem rest Hc _ IH]; simpl; [done|].
  rewrite Hc, IH. simpl. by destruct (p elem).
Qed.

Lemma filter_complement_perm {A} (p : A → bool) (l : list A) :
  List.filter p l ++ List.filter (λ x, negb (p x)) l ≡ₚ l.
Proof.
  induction l as [|a l IH]; simpl; [done|].
  destruct (p a); simpl.
  - by f_equiv.
  - rewrite <- Permutation_middle. by f_equiv.
Qed.

Lemma filter_sublist {A} (p : A → bool) (l : list A) :
  sublist (List.filter p l) l.
Proof.
  induction l as [|a l IH]; simpl; [constructor|].
  destruct (p a); by constructor.
Qed.

Lemma filter_complement_disjoint {A} (p : A → bool) (l : list A) x :
  x ∈ List.filter p l → x ∉ List.filter (λ y, negb (p y)) l.
Proof.
  rewrite !list_elem_of_In, !filter_In. intros [_ Hp] [_ Hn].
  rewrite Hp in Hn. discriminate.
Qed.

Lemma filter_complement_length {A} (p : A → bool) (l : list A) :
  (length (List.filter p l) + length (List.filter (λ x, negb (p x)) l))%nat = length l.
Proof. rewrite <- length_app. by rewrite filter_complement_perm. Qed.

Lemma filter_named_locations_run self filename fs text data R :
  fs_read fs (raw_data_dir self) filename = Some text →
  json_loads text = Some data →
  py_getitem data "elements" = inr (JArr R) →
  Forall (λ elem, well_formed_element elem = true) R →
  ∃ version,
    py_get data "version" (JFloat 6 (-1)) = inr version ∧
    filter_named_locations self filename fs =
      (inr (rsplit_dot_head filename +:+ "_named_only.json"),
       fs_write fs (filtered_data_dir self)
         (rsplit_dot_head filename +:+ "_named_only.json")
         (json_dumps (Some 2%Z)
            (filtered_header version filename "named_only"
               (Z.of_nat (length R)) (List.filter has_name_tag R)))).
Proof.
  intros Hread Hload Hel Hwf.
  destruct data as [| | | | |items|fields]; try discriminate.
  exists (default (JFloat 6 (-1)) (dict_lookup "version" fields)). split.
  { simpl. by destruct (dict_lookup "version" fields). }
  unfold filter_named_locations, bind, load_data, lift.
  rewrite Hread, (json_load_file_parsed _ _ Hload), Hel. simpl.
  rewrite (comprehension_filter named_cond has_name_tag).
  2:{ eapply Forall_impl; [exact Hwf|]. apply named_cond_well_formed. }
  by destruct (dict_lookup "version" fields).
Qed.

Lemma filter_unnamed_locations_run self filename fs text data R :
  fs_read fs (raw_data_dir self) filename = Some text →
  json_loads text = Some data →
  py_getitem data "elements" = inr (JArr R) →
  Forall (λ elem, well_formed_element elem = true) R →
  ∃ version,
    py_get data "version" (JFloat 6 (-1)) = inr version ∧
    filter_unnamed_locations self filename fs =
      (inr (rsplit_dot_head filename +:+ "_unnamed_only.json"),
       fs_write fs (filtered_data_dir self)
         (rsplit_dot_head filename +:+ "_unnamed_only.json")
         (json_dumps (Some 2%Z)
            (filtered_header version filename "unnamed_only"
               (Z.of_nat (length R))
               (List.filter (λ elem, negb (has_name_tag elem)) R)))).
Proof.
  intros Hread Hload Hel Hwf.
  destruct data as [| | | | |items|fields]; try discriminate.
  exists (default (JFloat 6 (-1)) (dict_lookup "version" fields)). split.
  { simpl. by destruct (dict_lookup "version" fields). }
  unfold filter_unnamed_locations, bind, load_data, lift.
  rewrite Hread, (json_load_file_parsed _ _ Hload), Hel. simpl.
  rewrite (comprehension_filter unnamed_cond (λ elem, negb (has_name_tag elem))).
  2:{ eapply Forall_impl; [exact Hwf|]. apply unnamed_cond_well_formed. }
  by destruct (dict_lookup "version" fields).
Qed.

(** C6. For a loaded result set with elements [R], [filter_named_locations]
    writes exactly the elements of [R] that have a tags mapping with a
    "name" key, and [filter_unnamed_locations] exactly the others, both in
    the order of [R]; the header of each output records the source file
    name, the filter kind, [original_count] = the number of elements of [R]
    and [filtered_count] = the number of elements written. *)
Theorem filters_keep_named_and_record_counts self filename fs text data R :
  fs_read fs (raw_data_dir self) filename = Some text →
  json_loads text = Some data →
  py_getitem data "elements" = inr (JArr R) →
  Forall (λ elem, well_formed_element elem = true) R →
  let named := List.filter has_name_tag R in
  let unnamed := List.filter (λ elem, negb (has_name_tag elem)) R in
  let named_file := rsplit_dot_head filename +:+ "_named_only.json" in
  let unnamed_file := rsplit_dot_head filename +:+ "_unnamed_only.json" in
  ∃ version,
    py_get data "version" (JFloat 6 (-1)) = inr version ∧
    filter_named_locations self filename fs =
      (inr named_file,
       fs_write fs (filtered_data_dir self) named_file
         (json_dumps (Some 2%Z)
            (JObj [ ("version", version);
                    ("generator", JStr "Filtered Data");
                    ("original_file", JStr filename);
                    ("filter_type", JStr "named_only");
                    ("original_count", JInt (Z.of_nat (length R)));
                    ("filtered_count", JInt (Z.of_nat (length named)));
                    ("elements", JArr named) ]))) ∧
    filter_unnamed_locations self filename fs =
      (inr unnamed_file,
       fs_write fs (filtered_data_dir self) unnamed_file
         (json_dumps (Some 2%Z)
            (JObj [ ("version", version);
                    ("generator", JStr "Filtered Data");
                    ("original_file", JStr filename);
                    ("filter_type", JStr "unnamed_only");
                    ("original_count", JInt (Z.of_nat (length R)));
                    ("filtered_count", JInt (Z.of_nat (length unnamed)));
                    ("elements", JArr unnamed) ]))).
Proof.
  intros Hread Hload Hel Hwf named unnamed named_file unnamed_file.
  destruct (filter_named_locations_run _ _ _ _ _ _ Hread Hload Hel Hwf)
    as (version & Hv & Hn).
  destruct (filter_unnamed_locations_run _ _ _ _ _ _ Hread Hload Hel Hwf)
    as (version' & Hv' & Hu).
  exists version. rewrite Hv in Hv'. injection Hv' as <-.
  split; [exact Hv|]. split; [exact Hn|exact Hu].
Qed.

(** Over any list of values the two comprehensions end alike: the first
    element on which the condition raises stops both with its exception,
    and otherwise they keep an element each time the other drops it. *)
Lemma comprehension_complement items :
  match comprehension named_cond items with
  | inl e => comprehension unnamed_cond items = inl e
  | inr named =>
      named = List.filter keeps items ∧
      comprehension unnamed_cond items =
        inr (List.filter (λ elem, negb (keeps elem)) items)
  end.
Proof.
  induction items as [|elem rest IH]; [done|].
  cbn [comprehension List.filter]. rewrite unnamed_cond_complement.
  destruct (named_cond elem) as [e|b] eqn:Hcond; cbn [bindR]; [done|].
  assert (keeps elem = b) as -> by (unfold keeps; by rewrite Hcond).
  destruct (comprehension named_cond rest) as [e|named]; cbn [bindR].
  - by rewrite IH.
  - destruct IH as [-> ->]. cbn [bindR]. by destruct b.
Qed.

(** C1. For a loaded result set whose "elements" is any list [R]: either
    the filter condition raises on some element and then both filters stop
    with that exception and write nothing, or both return, and then the list
    kept and written by [filter_named_locations] and the one kept and
    written by [filter_unnamed_locations] are together a rearrangement of
    [R] (nothing lost, nothing duplicated), no element is in both, and each
    of the two lists keeps the relative order its elements have in [R]. *)
Theorem named_unnamed_partition self filename fs text data R :
  fs_read fs (raw_data_dir self) filename = Some text →
  json_loads text = Some data →
  py_getitem data "elements" = inr (JArr R) →
  match comprehension named_cond R with
  | inl e =>
      filter_named_locations self filename fs = (inl e, fs) ∧
      filter_unnamed_locations self filename fs = (inl e, fs)
  | inr named =>
      ∃ (unnamed : list json) (version : json) (named_file unnamed_file : string),
        filter_named_locations self filename fs =
          (inr named_file,
           fs_write fs (filtered_data_dir self) named_file
             (json_dumps (Some 2%Z)
                (filtered_header version filename "named_only"
                   (Z.of_nat (length R)) named))) ∧
        comprehension unnamed_cond R = inr unnamed ∧
        filter_unnamed_locations self filename fs =
          (inr unnamed_file,
           fs_write fs (filtered_data_dir self) unnamed_file
             (json_dumps (Some 2%Z)
                (filtered_header version filename "unnamed_only"
                   (Z.of_nat (length R)) unnamed))) ∧
        named ++ unnamed ≡ₚ R ∧
        (∀ elem, elem ∈ named → elem ∉ unnamed) ∧
        sublist named R ∧
        sublist unnamed R ∧
        (length named + length unnamed)%nat = length R
  end.
Proof.
  intros Hread Hload Hel.
  pose proof (comprehension_complement R) as Hcompl.
  destruct data as [| | | | |items|fields]; try discriminate.
  unfold filter_named_locations, filter_unnamed_locations, bind, load_data, lift.
  rewrite Hread, (json_load_file_parsed _ _ Hload), Hel. simpl.
  destruct (comprehension named_cond R) as [e|named].
  - by rewrite Hcompl.
  - destruct Hcompl as [-> ->]. simpl.
    exists (List.filter (λ elem, negb (keeps elem)) R),
           (default (JFloat 6 (-1)) (dict_lookup "version" fields)),
           (rsplit_dot_head filename +:+ "_named_only.json"),
           (rsplit_dot_head filename +:+ "_unnamed_only.json").
    split; [by destruct (dict_lookup "version" fields)|].
    split; [done|].
    split; [by destruct (dict_lookup "version" fields)|].
    split; [apply filter_complement_perm|].
    split; [apply filter_complement_disjoint|].
    split; [apply filter_sublist|].
    split; [apply filter_sublist|apply filter_complement_length].
Qed.

(** ** Counting the objects of the two directories *)

Lemma count_step_with_zero name c file :
  file.1 ≠ name →
  count_step (with_zero name c) file =
    (c' <- count_step c file ;; inr (with_zero name c')).
Proof.
  intros Hne. unfold count_step.
  destruct (count_file file.2) as [e|n]; simpl.
  - destruct (isinstance_JSONDecodeError e); simpl; [|done].
    unfold with_zero; simpl. do 2 f_equal. by apply insert_insert_ne.
  - unfold with_zero; simpl. do 2 f_equal. by apply insert_insert_ne.
Qed.

Lemma count_loop_with_zero name c listing :
  name ∉ listing.*1 →
  count_loop (with_zero name c) listing =
    (c' <- count_loop c listing ;; inr (with_zero name c')).
Proof.
  revert c. induction listing as [|file rest IH]; intros c Hname; simpl; [done|].
  rewrite fmap_cons, not_elem_of_cons in Hname. destruct Hname as [Hne Hrest].
  rewrite count_step_with_zero by done.
  destruct (count_step c file) as [e|c1]; simpl; [done|]. by apply IH.
Qed.

(** A file whose turn of the loop records a zero and leaves the total as it
    was can be taken out of the listing and recorded afterwards. *)
Lemma count_loop_zero_file name text c before after :
  (∀ c0, count_step c0 (name, text) = inr (with_zero name c0)) →
  name ∉ after.*1 →
  count_loop c (before ++ (name, text) :: after) =
    (c' <- count_loop c (before ++ after) ;; inr (with_zero name c')).
Proof.
  intros Hzero Hname. revert c.
  induction before as [|file rest IH]; intros c; simpl.
  - rewrite Hzero. simpl. by apply count_loop_with_zero.
  - destruct (count_step c file) as [e|c1]; simpl; [done|]. apply IH.
Qed.

Lemma glob_json_split fs d before name text after :
  listdir fs d = before ++ (name, text) :: after →
  ends_with ".json" name = true →
  glob_json fs d =
    List.filter (λ f, ends_with ".json" f.1) before
    ++ (name, text) :: List.filter (λ f, ends_with ".json" f.1) after.
Proof.
  intros Hdir Hjson. unfold glob_json. rewrite Hdir, List.filter_app. simpl.
  by rewrite Hjson.
Qed.

Lemma glob_json_insert fs d d' listing :
  glob_json (<[d := listing]> fs) d' =
    if String.eqb d d' then List.filter (λ f, ends_with ".json" f.1) listing
    else glob_json fs d'.
Proof.
  unfold glob_json, listdir.
  destruct (String.eqb_spec d d') as [->|Hne].
  - by rewrite lookup_insert_eq.
  - by rewrite lookup_insert_ne.
Qed.

Lemma not_in_filter_names (p : string * string → bool) name (l : directory) :
  name ∉ l.*1 → name ∉ (List.filter p l).*1.
Proof.
  intros Hname Hin. apply Hname.
  apply list_elem_of_fmap in Hin as ((n & t) & -> & Hin).
  apply list_elem_of_fmap. exists (n, t). split; [done|].
  apply list_elem_of_In in Hin. apply filter_In in Hin as [Hin _].
  by apply list_elem_of_In.
Qed.

Lemma count_objects_zero_file self fs d before name text after :
  (∀ c0, count_step c0 (name, text) = inr (with_zero name c0)) →
  listdir fs d = before ++ (name, text) :: after →
  name ∉ (before ++ after).*1 →
  ends_with ".json" name = true →
  count_objects self fs =
    (c <- count_objects self (<[d := before ++ after]> fs) ;;
     inr (record_zero self d name c)).
Proof.
  intros Hzero Hdir Hname Hjson.
  assert (name ∉ (List.filter (λ f, ends_with ".json" f.1) after).*1) as Hafter.
  { apply not_in_filter_names. rewrite fmap_app in Hname.
    intros Hin. apply Hname, elem_of_app. by right. }
  pose proof (glob_json_split _ _ _ _ _ _ Hdir Hjson) as Hglob.
  unfold count_objects, record_zero. rewrite !glob_json_insert.
  destruct (String.eqb_spec d (raw_data_dir self)) as [Hraw|Hraw];
    destruct (String.eqb_spec d (filtered_data_dir self)) as [Hfil|Hfil].
  - rewrite <- Hraw, <- Hfil, Hglob, List.filter_app.
    rewrite count_loop_zero_file by done.
    destruct (count_loop no_counts _) as [e|c1]; simpl; [done|]. done.
  - rewrite <- Hraw, Hglob, List.filter_app.
    rewrite count_loop_zero_file by done.
    destruct (count_loop no_counts _) as [e|c1]; simpl; [done|].
    destruct (count_loop no_counts _) as [e|c2]; simpl; done.
  - rewrite <- Hfil, Hglob, List.filter_app.
    rewrite count_loop_zero_file by done.
    destruct (count_loop no_counts (glob_json fs (raw_data_dir self))) as [e|c1];
      simpl; [done|].
    destruct (count_loop no_counts _) as [e|c2]; simpl; done.
  - destruct (count_loop no_counts (glob_json fs (raw_data_dir self))) as [e|c1];
      simpl; [done|].
    destruct (count_loop no_counts _) as [e|c2]; simpl; done.
Qed.

(** What the equation of [count_objects_zero_file] says about the report. *)
Lemma record_zero_report self fs fs' d name :
  count_objects self fs =
    (c <- count_objects self fs' ;; inr (record_zero self d name c)) →
  (∀ e, count_objects self fs' = inl e → count_objects self fs = inl e) ∧
  (∀ c0, count_objects self fs' = inr c0 →
     ∃ c, count_objects self fs = inr c ∧
       total_objects (raw_data c) = total_objects (raw_data c0) ∧
       total_objects (filtered_data c) = total_objects (filtered_data c0) ∧
       (d = raw_data_dir self → files (raw_data c) !! name = Some 0%Z) ∧
       (d = filtered_data_dir self → files (filtered_data c) !! name = Some 0%Z)).
Proof.
  intros Heq. split.
  - intros e He. by rewrite Heq, He.
  - intros c0 Hc0. rewrite Heq, Hc0. simpl. eexists. split; [done|].
    unfold record_zero; simpl.
    destruct (String.eqb_spec d (raw_data_dir self));
      destruct (String.eqb_spec d (filtered_data_dir self)); simpl;
      repeat split; try done; intros _; apply lookup_insert_eq.
Qed.




(** C10. In a directory-wide count, a [*.json] file holding a JSON object
    without an "elements" key gets the per-file count 0, adds 0 to the total
    and does not make the count raise. *)
Theorem object_without_elements_counts_zero self fs d before name text fields after :
  listdir fs d = before ++ (name, text) :: after →
  name ∉ (before ++ after).*1 →
  ends_with ".json" name = true →
  json_loads text = Some (JObj fields) →
  dict_lookup "elements" fields = None →
  let fs_without := <[d := before ++ after]> fs in
  (∀ c0, count_step c0 (name, text) =
           inr {| total_objects := total_objects c0 + 0;
                  files := <[name := 0%Z]> (files c0) |}) ∧
  count_objects self fs =
    (c <- count_objects self fs_without ;; inr (record_zero self d name c)) ∧
  (∀ e, count_objects self fs_without = inl e → count_objects self fs = inl e) ∧
  (∀ c0, count_objects self fs_without = inr c0 →
     ∃ c, count_objects self fs = inr c ∧
       total_objects (raw_data c) = total_objects (raw_data c0) ∧
       total_objects (filtered_data c) = total_objects (filtered_data c0) ∧
       (d = raw_data_dir self → files (raw_data c) !! name = Some 0%Z) ∧
       (d = filtered_data_dir self → files (filtered_data c) !! name = Some 0%Z)).
Proof.
  intros Hdir Hname Hjson Hobj Hnone fs_without.
  assert (∀ c0, count_step c0 (name, text) =
                  inr {| total_objects := total_objects c0 + 0;
                         files := <[name := 0%Z]> (files c0) |}) as Hstep.
  { intros c0. unfold count_step, count_file. simpl.
    rewrite (json_load_file_parsed _ _ Hobj). simpl. by rewrite Hnone. }
  split; [exact Hstep|].
  assert (count_objects self fs =
            (c <- count_objects self fs_without ;; inr (record_zero self d name c)))
    as Heq.
  { apply (count_objects_zero_file self fs d before name text after); try done.
    intros c0. rewrite Hstep. unfold with_zero. by rewrite Z.add_0_r. }
  split; [exact Heq|]. by apply record_zero_report.
Qed.


(** ** The retry loop of [fetch_with_progress] *)

Lemma after_attempts_none w query delay : after_attempts w query 0 0 delay = w.
Proof. destruct w. unfold after_attempts; simpl. by rewrite !app_nil_r. Qed.

Lemma after_attempts_more w query n k n' k' delay :
  after_attempts (after_attempts w query n k delay) query n' k' delay =
    after_attempts w query (n + n') (k + k') delay.
Proof.
  unfold after_attempts; simpl. by rewrite !replicate_add, !app_assoc.
Qed.

Lemma send_request_run query w delay :
  send_request query w =
    (match net w (length (sent w)) query with
     | Failed kind => inl (RequestException kind)
     | Body content => json_load content
     end,
     after_attempts w query 1 0 delay).
Proof.
  unfold send_request, after_attempts; simpl. rewrite app_nil_r.
  by destruct (net w (length (sent w)) query).
Qed.

Lemma sleep_run query w delay n k :
  (0 ≤ delay)%Z →
  sleep delay (after_attempts w query n k delay) =
    (inr tt, after_attempts w query n (k + 1) delay).
Proof.
  intros Hd. unfold sleep.
  destruct (Z.ltb_spec delay 0) as [?|_]; [lia|].
  unfold after_attempts; simpl. by rewrite replicate_add, app_assoc.
Qed.

Lemma next_replies_fail_shift w query delay n :
  next_replies_fail w query (S n) →
  next_replies_fail (after_attempts w query 1 1 delay) query n.
Proof.
  intros Hfail i Hi. simpl. rewrite length_app; simpl.
  replace (length (sent w) + 1 + i)%nat with (length (sent w) + S i)%nat by lia.
  apply Hfail. lia.
Qed.

(** The first [k] replies are failures and the next one is a body: [k]
    delays are slept, [k + 1] requests are sent, and the attempt on the body
    decides the result. *)
Lemma fetch_attempts_body query retries delay k :
  (0 ≤ delay)%Z →
  ∀ a m w content,
    retries = Z.of_nat (a + m) →
    (k < m)%nat →
    next_replies_fail w query k →
    net w (length (sent w) + k)%nat query = Body content →
    fetch_attempts query retries delay (map Z.of_nat (seq a m)) w =
      (json_load content, after_attempts w query (S k) k delay).
Proof.
  intros Hd. induction k as [|k IH]; intros a m w content Hr Hk Hfail Hbody.
  - destruct m as [|m]; [lia|]. simpl.
    rewrite (send_request_run _ _ delay).
    rewrite Nat.add_0_r in Hbody. rewrite Hbody.
    unfold json_load. by destruct (json_loads content).
  - destruct m as [|m]; [lia|]. simpl.
    rewrite (send_request_run _ _ delay).
    destruct (Hfail 0%nat) as [kind Hkind]; [lia|].
    rewrite Nat.add_0_r in Hkind. rewrite Hkind. simpl.
    destruct (Z.ltb_spec (Z.of_nat a) (retries - 1)) as [_|?]; [|lia].
    unfold bind. rewrite sleep_run by done. simpl.
    rewrite (IH (S a) m _ content).
    + by rewrite after_attempts_more.
    + lia.
    + lia.
    + by apply next_replies_fail_shift.
    + simpl. rewrite length_app; simpl. rewrite <- Hbody. f_equal. lia.
Qed.

(** All the replies are failures: the last failure is raised after
    [retries] requests and [retries - 1] delays. *)
Lemma fetch_attempts_exhausted query retries delay m :
  (0 ≤ delay)%Z →
  ∀ a w,
    retries = Z.of_nat (a + S m) →
    next_replies_fail w query (S m) →
    ∃ kind,
      net w (length (sent w) + m)%nat query = Failed kind ∧
      fetch_attempts query retries delay (map Z.of_nat (seq a (S m))) w =
        (inl (RequestException kind), after_attempts w query (S m) m delay).
Proof.
  intros Hd. induction m as [|m IH]; intros a w Hr Hfail.
  - destruct (Hfail 0%nat) as [kind Hkind]; [lia|]. exists kind.
    split; [done|]. simpl. rewrite (send_request_run _ _ delay).
    rewrite Nat.add_0_r in Hkind. rewrite Hkind. simpl.
    destruct (Z.ltb_spec (Z.of_nat a) (retries - 1)) as [?|_]; [lia|]. done.
  - destruct (IH (S a) (after_attempts w query 1 1 delay)) as (kind & Hkind & Hrun).
    { lia. }
    { by apply next_replies_fail_shift. }
    exists kind. split.
    { simpl in Hkind. rewrite length_app in Hkind; simpl in Hkind.
      rewrite <- Hkind. f_equal. lia. }
    destruct (Hfail 0%nat) as [kind0 Hkind0]; [lia|].
    rewrite Nat.add_0_r in Hkind0.
    change (seq a (S (S m))) with (a :: seq (S a) (S m)). cbn [map fetch_attempts].
    rewrite (send_request_run _ _ delay), Hkind0. simpl isinstance_RequestException.
    cbv iota.
    destruct (Z.ltb_spec (Z.of_nat a) (retries - 1)) as [_|?]; [|lia].
    unfold bind. rewrite sleep_run by done. simpl Nat.add.
    rewrite Hrun. by rewrite after_attempts_more.
Qed.

(** Whatever the replies, no more requests are sent than attempts are left,
    and one delay is slept between two consecutive requests. *)
Lemma fetch_attempts_bound query retries delay m :
  (0 ≤ delay)%Z →
  ∀ a w,
    retries = Z.of_nat (a + m) →
    ∃ n, (n ≤ m)%nat ∧ (1 ≤ m → 1 ≤ n)%nat ∧
      (fetch_attempts query retries delay (map Z.of_nat (seq a m)) w).2 =
        after_attempts w query n (n - 1) delay.
Proof.
  intros Hd. induction m as [|m IH]; intros a w Hr.
  - exists 0%nat. simpl. by rewrite after_attempts_none.
  - simpl. rewrite (send_request_run _ _ delay).
    destruct (net w (length (sent w)) query) as [kind|content]; simpl.
    + destruct (Z.ltb_spec (Z.of_nat a) (retries - 1)) as [Hlt|Hge].
      * unfold bind. rewrite sleep_run by done. simpl Nat.add.
        destruct (IH (S a) (after_attempts w query 1 1 delay)) as (n & Hn & Hpos & Hrun);
          [lia|].
        exists (S n). split; [lia|]. split; [lia|].
        rewrite Hrun, after_attempts_more. f_equal. lia.
      * exists 1%nat. split; [lia|]. split; [lia|]. done.
    + exists 1%nat. split; [lia|]. split; [lia|].
      unfold json_load. by destruct (json_loads content).
Qed.

(** A [RequestException] comes out only when every attempt has failed. *)
Lemma fetch_attempts_raises_last query retries delay m :
  (0 ≤ delay)%Z →
  ∀ a w kind w',
    retries = Z.of_nat (a + m) →
    fetch_attempts query retries delay (map Z.of_nat (seq a m)) w =
      (inl (RequestException kind), w') →
    next_replies_fail w query m ∧
    w' = after_attempts w query m (m - 1) delay.
Proof.
  intros Hd. induction m as [|m IH]; intros a w kind w' Hr Hrun.
  - simpl in Hrun. discriminate.
  - simpl in Hrun. rewrite (send_request_run _ _ delay) in Hrun.
    destruct (net w (length (sent w)) query) as [kind0|content] eqn:Hreply;
      simpl in Hrun.
    + destruct (Z.ltb_spec (Z.of_nat a) (retries - 1)) as [Hlt|Hge].
      * unfold bind in Hrun. rewrite sleep_run in Hrun by done. simpl Nat.add in Hrun.
        apply IH in Hrun as [Hfail ->]; [|lia].
        split.
        -- intros i Hi. destruct i as [|i].
           ++ exists kind0. by rewrite Nat.add_0_r.
           ++ destruct (Hfail i) as [kind1 Hkind1]; [lia|]. exists kind1.
              simpl in Hkind1. rewrite length_app in Hkind1; simpl in Hkind1.
              rewrite <- Hkind1. f_equal. lia.
        -- rewrite after_attempts_more. f_equal; lia.
      * assert (m = 0)%nat as -> by lia. injection Hrun as _ <-.
        split; [|done].
        intros i Hi. assert (i = 0)%nat as -> by lia. exists kind0.
        by rewrite Nat.add_0_r.
    + unfold json_load in Hrun. destruct (json_loads content); discriminate.
Qed.


Lemma range_seq retries : range retries = map Z.of_nat (seq 0 (Z.to_nat retries)).
Proof. reflexivity. Qed.

(** C3. A single-tile fetch sends at most [retries] requests (3 by default)
    and sleeps the flat [delay] (5 by default) between two consecutive
    ones; when the replies to the first attempts are transport failures and
    an attempt within the budget succeeds, its data is returned and no
    failure is raised; when all [retries] attempts fail, the last failure is
    raised; and a transport failure is raised only after all [retries]
    attempts have failed. *)
Theorem retry_policy query retries delay w :
  (0 ≤ delay)%Z →
  (∃ n, (Z.of_nat n ≤ Z.max 0 retries)%Z ∧
     (fetch_with_progress query retries delay w).2 =
       after_attempts w query n (n - 1) delay) ∧
  (∀ k content data,
     (Z.of_nat k < retries)%Z →
     next_replies_fail w query k →
     net w (length (sent w) + k)%nat query = Body content →
     json_loads content = Some data →
     fetch_with_progress query retries delay w =
       (inr data, after_attempts w query (S k) k delay)) ∧
  (∀ m,
     retries = Z.of_nat (S m) →
     next_replies_fail w query (S m) →
     ∃ kind,
       net w (length (sent w) + m)%nat query = Failed kind ∧
       fetch_with_progress query retries delay w =
         (inl (RequestException kind), after_attempts w query (S m) m delay)) ∧
  (∀ kind w',
     fetch_with_progress query retries delay w = (inl (RequestException kind), w') →
     next_replies_fail w query (Z.to_nat retries) ∧
     w' = after_attempts w query (Z.to_nat retries) (Z.to_nat retries - 1) delay).
Proof.
  intros Hd. unfold fetch_with_progress. rewrite range_seq.
  split; [|split; [|split]].
  - destruct (Z.le_gt_cases 0 retries) as [Hr|Hr].
    + destruct (fetch_attempts_bound query retries delay (Z.to_nat retries) Hd 0 w)
        as (n & Hn & _ & Hrun); [lia|].
      exists n. split; [lia|done].
    + exists 0%nat. split; [lia|].
      replace (Z.to_nat retries) with 0%nat by lia. simpl.
      by rewrite after_attempts_none.
  - intros k content data Hk Hfail Hbody Hload.
    rewrite (fetch_attempts_body query retries delay k Hd 0 _ w content);
      try done; try lia.
    unfold json_load. by rewrite Hload.
  - intros m -> Hfail. rewrite Nat2Z.id.
    apply (fetch_attempts_exhausted query _ delay m Hd 0 w); [lia|done].
  - intros kind w' Hrun.
    destruct (Z.le_gt_cases 0 retries) as [Hr|Hr].
    + apply (fetch_attempts_raises_last query retries delay _ Hd 0 w kind w');
        [lia|done].
    + replace (Z.to_nat retries) with 0%nat in Hrun by lia. discriminate.
Qed.

(** C4, as the code has it. A body that was received whole but is not a
    JSON document is not retried: its parse error is raised at once by the
    attempt that received it, with no delay after it and no further request
    (only transport failures are retried). *)
Theorem malformed_body_not_retried query retries delay w k content :
  (0 ≤ delay)%Z →
  (Z.of_nat k < retries)%Z →
  next_replies_fail w query k →
  net w (length (sent w) + k)%nat query = Body content →
  json_loads content = None →
  fetch_with_progress query retries delay w =
    (inl JSONDecodeError, after_attempts w query (S k) k delay).
Proof.
  intros Hd Hk Hfail Hbody Hload. unfold fetch_with_progress. rewrite range_seq.
  rewrite (fetch_attempts_body query retries delay k Hd 0 _ w content);
    try done; try lia.
  unfold json_load. by rewrite Hload.
Qed.

(** ** The loop over the sub-areas and the cache *)

Lemma fetch_subarea_state node_type subarea w :
  ∃ n, (n ≤ 3)%nat ∧
    (fetch_subarea node_type subarea w).2 =
      after_attempts w (build_query node_type subarea) n (n - 1) default_delay.
Proof.
  unfold fetch_subarea, fetch_with_progress, bind. rewrite range_seq.
  destruct (fetch_attempts_bound (build_query node_type subarea) default_retries
              default_delay (Z.to_nat default_retries) ltac:(done) 0 w)
    as (n & Hn & _ & Hrun); [done|].
  exists n. split; [exact Hn|]. rewrite <- Hrun.
  destruct (fetch_attempts _ _ _ _ w) as [[e|data] w']; simpl; [done|].
  unfold lift. by destruct (py_get data "elements" (JArr [])).
Qed.

(** The loop never raises, whatever the service answers. *)
Lemma fetch_subareas_total node_type todo :
  ∀ all_elements w,
    ∃ all w', fetch_subareas node_type todo all_elements w = (inr all, w') ∧
              net w' = net w ∧ disk w' = disk w.
Proof.
  induction todo as [|subarea rest IH]; intros all_elements w; simpl.
  - by eexists _, _.
  - destruct (fetch_subarea_state node_type subarea w) as (n & _ & Hst).
    destruct (fetch_subarea node_type subarea w) as [[e|elements] w1];
      simpl in Hst; subst w1.
    + destruct (IH all_elements (after_attempts w (build_query node_type subarea)
                                   n (n - 1) default_delay))
        as (all & w' & Hrun & Hnet & Hdisk).
      by exists all, w'.
    + destruct (IH (all_elements ++ elements)
                  (after_attempts w (build_query node_type subarea)
                     n (n - 1) default_delay))
        as (all & w' & Hrun & Hnet & Hdisk).
      by exists all, w'.
Qed.

(** What is already accumulated stays in front. *)
Lemma fetch_subareas_acc node_type todo :
  ∀ all_elements w found w',
    fetch_subareas node_type todo [] w = (inr found, w') →
    fetch_subareas node_type todo all_elements w = (inr (all_elements ++ found), w').
Proof.
  induction todo as [|subarea rest IH]; intros all_elements w found w'; simpl.
  - unfold ret. intros [= <- <-]. by rewrite app_nil_r.
  - destruct (fetch_subarea node_type subarea w) as [[e|elements] w1]; simpl.
    + apply IH.
    + intros Hrun.
      destruct (fetch_subareas_total node_type rest [] w1) as (tail & w2 & Htail & _).
      rewrite (IH elements w1 tail w2 Htail) in Hrun. injection Hrun as <- <-.
      rewrite (IH (all_elements ++ elements) w1 tail w2 Htail).
      by rewrite app_assoc.
Qed.

Lemma fetch_subareas_app node_type before after :
  ∀ all_elements w found w',
    fetch_subareas node_type before all_elements w = (inr found, w') →
    fetch_subareas node_type (before ++ after) all_elements w =
      fetch_subareas node_type after found w'.
Proof.
  induction before as [|subarea rest IH]; intros all_elements w found w'; simpl.
  - unfold ret. by intros [= <- <-].
  - destruct (fetch_subarea node_type subarea w) as [[e|elements] w1]; simpl;
      apply IH.
Qed.

Lemma dir_read_write name text d : dir_read name (dir_write name text d) = Some text.
Proof.
  induction d as [|[n t] rest IH]; simpl.
  - by rewrite String.eqb_refl.
  - destruct (String.eqb name n) eqn:Hn; simpl; by rewrite Hn.
Qed.

Lemma fs_read_write fs d name text : fs_read (fs_write fs d name text) d name = Some text.
Proof.
  unfold fs_read, fs_write, listdir. rewrite lookup_insert_eq. simpl.
  apply dir_read_write.
Qed.


(** Sub-areas answered at once add their elements in order. *)
Lemma fetch_subareas_answered node_type tiles :
  ∀ found all_elements w,
    answered (net w) (length (sent w)) node_type tiles found →
    fetch_subareas node_type tiles all_elements w =
      (inr (all_elements ++ concat found),
       {| net := net w; sent := sent w ++ map (build_query node_type) tiles;
          slept := slept w; disk := disk w |}).
Proof.
  induction tiles as [|subarea rest IH]; intros found all_elements w Hans.
  - destruct found; [|done]. simpl. rewrite !app_nil_r. by destruct w.
  - destruct found as [|elements found]; [done|].
    destruct Hans as [(content & Hbody & Helements) Hrest].
    assert (fetch_subarea node_type subarea w =
              (inr elements,
               after_attempts w (build_query node_type subarea) 1 0 default_delay))
      as Hsub.
    { unfold fetch_subarea, fetch_with_progress, bind. rewrite range_seq.
      rewrite (fetch_attempts_body (build_query node_type subarea) default_retries
                 default_delay 0 ltac:(done) 0 (Z.to_nat default_retries) w content);
        [|done|unfold default_retries; lia|intros i Hi; lia|by rewrite Nat.add_0_r].
      unfold tile_elements in Helements.
      destruct (json_load content) as [e|data]; simpl in Helements; [done|].
      unfold lift.
      destruct (py_get data "elements" (JArr [])) as [e|els]; simpl in Helements;
        [done|]. by rewrite Helements. }
    cbn [fetch_subareas]. rewrite Hsub.
    rewrite (IH found).
    + simpl. by rewrite !app_nil_r, <- !app_assoc.
    + simpl. rewrite length_app. simpl.
      by replace (length (sent w) + 1)%nat with (S (length (sent w))) by lia.
Qed.

Lemma fetch_data_miss self today node_type area_name w tiles found w' :
  fs_read (disk w) (cache_dir self) (cache_file_name node_type area_name today) = None →
  get_subareas self area_name = inr tiles →
  fetch_subareas node_type tiles [] w = (inr found, w') →
  fetch_data self today node_type area_name w =
    (inr (json_dumps None (combined_data found)),
     {| net := net w'; sent := sent w'; slept := slept w';
        disk := fs_write (disk w') (cache_dir self)
                  (cache_file_name node_type area_name today)
                  (json_dumps None (combined_data found)) |}).
Proof.
  intros Hmiss Htiles Hrun. unfold fetch_data. rewrite Hmiss.
  unfold bind, lift. rewrite Htiles, Hrun. done.
Qed.

(** C2. On a cache miss, a sub-area whose three attempts all fail is
    skipped: nothing of it is added, the loop goes on with the sub-areas
    after it in their order, and [fetch_data] returns normally, writing to
    the cache and returning the document whose "elements" are those of the
    sub-areas before it followed by those of the sub-areas after it; where
    the service answers these other sub-areas at once, they are the elements
    of its bodies, in order. *)
Theorem failed_tile_is_skipped self today node_type area_name w
    before subarea after elements_before w1 :
  fs_read (disk w) (cache_dir self) (cache_file_name node_type area_name today) = None →
  get_subareas self area_name = inr (before ++ subarea :: after) →
  fetch_subareas node_type before [] w = (inr elements_before, w1) →
  next_replies_fail w1 (build_query node_type subarea) 3 →
  let w2 := after_attempts w1 (build_query node_type subarea) 3 2 default_delay in
  ∃ elements_after w3,
    fetch_subareas node_type after [] w2 = (inr elements_after, w3) ∧
    (let text :=
       json_dumps None
         (JObj [ ("version", JFloat 6 (-1));
                 ("generator", JStr "Overpass API");
                 ("elements", JArr (elements_before ++ elements_after)) ]) in
     fetch_data self today node_type area_name w =
       (inr text,
        {| net := net w3; sent := sent w3; slept := slept w3;
           disk := fs_write (disk w3) (cache_dir self)
                     (cache_file_name node_type area_name today) text |})) ∧
    (∀ found,
       answered (net w) (length (sent w)) node_type before found →
       elements_before = concat found ∧
       sent w1 = sent w ++ map (build_query node_type) before) ∧
    (∀ found,
       answered (net w2) (length (sent w2)) node_type after found →
       elements_after = concat found ∧
       sent w3 = sent w2 ++ map (build_query node_type) after).
Proof.
  intros Hmiss Htiles Hbefore Hfail w2.
  destruct (fetch_subareas_total node_type after [] w2)
    as (elements_after & w3 & Hafter & _).
  exists elements_after, w3. split; [exact Hafter|]. split; [|split].
  - simpl.
    apply (fetch_data_miss _ _ _ _ _ _ _ _ Hmiss Htiles).
    rewrite (fetch_subareas_app _ _ _ _ _ _ _ Hbefore). simpl.
    destruct (fetch_attempts_exhausted (build_query node_type subarea) default_retries
                default_delay 2 ltac:(done) 0 w1 ltac:(done) Hfail)
      as (kind & _ & Hrun).
    unfold fetch_subarea, fetch_with_progress, bind. rewrite range_seq.
    change (Z.to_nat default_retries) with 3%nat. rewrite Hrun. simpl.
    by apply fetch_subareas_acc.
  - intros found Hans.
    rewrite (fetch_subareas_answered _ _ _ _ _ Hans) in Hbefore.
    by injection Hbefore as <- <-.
  - intros found Hans.
    rewrite (fetch_subareas_answered _ _ _ _ _ Hans) in Hafter.
    by injection Hafter as <- <-.
Qed.



(** ** main.py *)

(** C8, at the code. [analyze_example] asks the handler for
    [get_statistics], which [LocationDataHandler] does not define: once the
    file is loaded the call raises [AttributeError] and no statistics are
    produced. *)
Theorem analyze_example_raises filename fs text data :
  fs_read fs "data_cache" filename = Some text →
  json_loads text = Some data →
  analyze_example filename fs = (inl (AttributeError "get_statistics"), fs).
Proof.
  intros Hread Hload.
  unfold analyze_example, bind, load_data. simpl.
  by rewrite Hread, (json_load_file_parsed _ _ Hload).
Qed.


(** * Further properties of the data handler *)

Lemma before_last_dot_fresh s p c tail :
  before_last_dot s = Some p → c ≠ dot → p +:+ String c tail ≠ s.
Proof.
  revert p. induction s as [|a rest IH]; intros p; simpl; [done|].
  destruct (before_last_dot rest) as [p'|].
  - intros [= <-] Hc. simpl. intros [= Heq]. by eapply IH.
  - destruct (Ascii.eqb_spec a dot) as [->|]; [|done].
    intros [= <-] Hc. simpl. by intros [= ->].
Qed.

Lemma append_nonempty_fresh s c tail : s +:+ String c tail ≠ s.
Proof.
  induction s as [|a rest IH]; simpl; [done|]. by intros [= Heq].
Qed.

(** The name of the filtered file is never the name of the source file. *)
Lemma rsplit_dot_head_fresh filename c tail :
  c ≠ dot → rsplit_dot_head filename +:+ String c tail ≠ filename.
Proof.
  intros Hc. unfold rsplit_dot_head.
  destruct (before_last_dot filename) as [p|] eqn:Hp; simpl.
  - by apply before_last_dot_fresh.
  - apply append_nonempty_fresh.
Qed.

Lemma ends_with_refl suffix : ends_with suffix suffix = true.
Proof. destruct suffix; simpl; by rewrite ?String.eqb_refl, ?Ascii.eqb_refl. Qed.

Lemma ends_with_append suffix p s :
  ends_with suffix s = true → ends_with suffix (p +:+ s) = true.
Proof.
  intros Hs. induction p as [|a p IH]; simpl; [done|].
  rewrite IH. apply orb_true_r.
Qed.

Lemma dir_read_write_ne name name' text d :
  name ≠ name' → dir_read name (dir_write name' text d) = dir_read name d.
Proof.
  intros Hne. induction d as [|[n t] rest IH]; simpl.
  - destruct (String.eqb_spec name name'); [done|done].
  - destruct (String.eqb_spec name' n) as [->|Hn]; simpl.
    + by destruct (String.eqb_spec name n).
    + by rewrite IH.
Qed.

Lemma fs_read_write_ne fs d name d' name' text :
  d ≠ d' ∨ name ≠ name' →
  fs_read (fs_write fs d' name' text) d name = fs_read fs d name.
Proof.
  intros Hne. unfold fs_read, fs_write, listdir.
  destruct (decide (d' = d)) as [->|Hd].
  - rewrite lookup_insert_eq. simpl. apply dir_read_write_ne.
    by destruct Hne.
  - by rewrite lookup_insert_ne.
Qed.

Lemma dir_write_names name text d :
  (dir_write name text d).*1 = if bool_decide (name ∈ d.*1) then d.*1 else d.*1 ++ [name].
Proof.
  induction d as [|[n t] rest IH]; [done|]. cbn [dir_write].
  destruct (String.eqb_spec name n) as [->|Hn]; rewrite !fmap_cons; cbn [fst].
  - rewrite bool_decide_eq_true_2; [done|]. apply list_elem_of_here.
  - rewrite IH. destruct (bool_decide (name ∈ rest.*1)) eqn:Hin.
    + apply bool_decide_eq_true_1 in Hin.
      rewrite bool_decide_eq_true_2; [done|]. by apply list_elem_of_further.
    + apply bool_decide_eq_false_1 in Hin.
      rewrite bool_decide_eq_false_2; [done|].
      rewrite elem_of_cons. by intros [?|?].
Qed.

Lemma dir_write_elem name text d : (name, text) ∈ dir_write name text d.
Proof.
  induction d as [|[n t] rest IH]; simpl.
  - apply list_elem_of_here.
  - destruct (String.eqb_spec name n) as [->|Hn].
    + apply list_elem_of_here.
    + by apply list_elem_of_further.
Qed.

(** X1. [save_filtered_data] for every file name and suffix: the file it
    writes has a name different from the source file name and ending in
    ".json"; reading that file back gives the dump just written, and every
    other file of the disk reads as before. *)
Theorem save_filtered_data_writes_fresh_file self data filename suffix fs :
  ∃ new_filename fs',
    save_filtered_data self data filename suffix fs = (inr new_filename, fs') ∧
    new_filename ≠ filename ∧
    ends_with ".json" new_filename = true ∧
    fs_read fs' (filtered_data_dir self) new_filename
      = Some (json_dumps (Some 2%Z) data) ∧
    (∀ d name, d ≠ filtered_data_dir self ∨ name ≠ new_filename →
       fs_read fs' d name = fs_read fs d name).
Proof.
  eexists _, _. split; [reflexivity|].
  split.
  { apply rsplit_dot_head_fresh. by vm_compute. }
  split.
  { do 3 apply ends_with_append. apply ends_with_refl. }
  split; [apply fs_read_write|].
  intros d name Hne. by apply fs_read_write_ne.
Qed.


(** Either filter raises and leaves the disk alone, or it writes one file
    of the filtered directory. *)
Lemma filter_named_locations_effect self filename fs :
  (∃ e, filter_named_locations self filename fs = (inl e, fs)) ∨
  (∃ text,
     filter_named_locations self filename fs =
       (inr (rsplit_dot_head filename +:+ "_named_only.json"),
        fs_write fs (filtered_data_dir self)
          (rsplit_dot_head filename +:+ "_named_only.json") text)).
Proof.
  unfold filter_named_locations, bind, load_data, lift.
  destruct (fs_read fs (raw_data_dir self) filename) as [text|]; [|by left; eexists].
  destruct (json_load_file text) as [e|data]; [by left; eexists|].
  destruct (py_getitem data "elements") as [e|elements]; [by left; eexists|].
  destruct (py_len elements) as [e|n]; [by left; eexists|].
  destruct (py_iter elements) as [e|items]; [by left; eexists|].
  destruct (comprehension named_cond items) as [e|kept]; [by left; eexists|].
  destruct (py_get data "version" (JFloat 6 (-1))) as [e|version]; [by left; eexists|].
  right. by eexists.
Qed.

Lemma filter_unnamed_locations_effect self filename fs :
  (∃ e, filter_unnamed_locations self filename fs = (inl e, fs)) ∨
  (∃ text,
     filter_unnamed_locations self filename fs =
       (inr (rsplit_dot_head filename +:+ "_unnamed_only.json"),
        fs_write fs (filtered_data_dir self)
          (rsplit_dot_head filename +:+ "_unnamed_only.json") text)).
Proof.
  unfold filter_unnamed_locations, bind, load_data, lift.
  destruct (fs_read fs (raw_data_dir self) filename) as [text|]; [|by left; eexists].
  destruct (json_load_file text) as [e|data]; [by left; eexists|].
  destruct (py_getitem data "elements") as [e|elements]; [by left; eexists|].
  destruct (py_len elements) as [e|n]; [by left; eexists|].
  destruct (py_iter elements) as [e|items]; [by left; eexists|].
  destruct (comprehension unnamed_cond items) as [e|kept]; [by left; eexists|].
  destruct (py_get data "version" (JFloat 6 (-1))) as [e|version]; [by left; eexists|].
  right. by eexists.
Qed.

Lemma filter_named_locations_keeps_source self filename fs :
  fs_read (filter_named_locations self filename fs).2 (raw_data_dir self) filename
    = fs_read fs (raw_data_dir self) filename.
Proof.
  destruct (filter_named_locations_effect self filename fs) as [[e ->]|[text ->]];
    [done|]. simpl.
  apply fs_read_write_ne. right. intros Heq. symmetry in Heq. revert Heq.
  apply rsplit_dot_head_fresh. by vm_compute.
Qed.

Lemma filter_unnamed_locations_keeps_source self filename fs :
  fs_read (filter_unnamed_locations self filename fs).2 (raw_data_dir self) filename
    = fs_read fs (raw_data_dir self) filename.
Proof.
  destruct (filter_unnamed_locations_effect self filename fs) as [[e ->]|[text ->]];
    [done|]. simpl.
  apply fs_read_write_ne. right. intros Heq. symmetry in Heq. revert Heq.
  apply rsplit_dot_head_fresh. by vm_compute.
Qed.

(** What a filter returns depends on the disk through the source file only. *)
Lemma filter_named_locations_same_source self filename fs fs' :
  fs_read fs' (raw_data_dir self) filename = fs_read fs (raw_data_dir self) filename →
  (filter_named_locations self filename fs').1 = (filter_named_locations self filename fs).1.
Proof.
  intros Hsame. unfold filter_named_locations, bind, load_data, lift. rewrite Hsame.
  destruct (fs_read fs (raw_data_dir self) filename) as [text|]; [|done].
  destruct (json_load_file text) as [e|data]; [done|].
  destruct (py_getitem data "elements") as [e|elements]; [done|].
  destruct (py_len elements) as [e|n]; [done|].
  destruct (py_iter elements) as [e|items]; [done|].
  destruct (comprehension named_cond items) as [e|kept]; [done|].
  by destruct (py_get data "version" (JFloat 6 (-1))) as [e|version].
Qed.

Lemma filter_unnamed_locations_same_source self filename fs fs' :
  fs_read fs' (raw_data_dir self) filename = fs_read fs (raw_data_dir self) filename →
  (filter_unnamed_locations self filename fs').1
    = (filter_unnamed_locations self filename fs).1.
Proof.
  intros Hsame. unfold filter_unnamed_locations, bind, load_data, lift. rewrite Hsame.
  destruct (fs_read fs (raw_data_dir self) filename) as [text|]; [|done].
  destruct (json_load_file text) as [e|data]; [done|].
  destruct (py_getitem data "elements") as [e|elements]; [done|].
  destruct (py_len elements) as [e|n]; [done|].
  destruct (py_iter elements) as [e|items]; [done|].
  destruct (comprehension unnamed_cond items) as [e|kept]; [done|].
  by destruct (py_get data "version" (JFloat 6 (-1))) as [e|version].
Qed.

(** X2. Filtering never touches its source file, also when the raw and the
    filtered directory are the same one: after either filter has run on a
    file, that file reads as before, and the other filter run next on it
    returns what it would have returned on the disk as it was. *)
Theorem source_survives_filtering self filename fs :
  let after_named := (filter_named_locations self filename fs).2 in
  let after_unnamed := (filter_unnamed_locations self filename fs).2 in
  fs_read after_named (raw_data_dir self) filename
    = fs_read fs (raw_data_dir self) filename ∧
  (filter_unnamed_locations self filename after_named).1
    = (filter_unnamed_locations self filename fs).1 ∧
  fs_read after_unnamed (raw_data_dir self) filename
    = fs_read fs (raw_data_dir self) filename ∧
  (filter_named_locations self filename after_unnamed).1
    = (filter_named_locations self filename fs).1.
Proof.
  simpl. split; [apply filter_named_locations_keeps_source|].
  split.
  { apply filter_unnamed_locations_same_source, filter_named_locations_keeps_source. }
  split; [apply filter_unnamed_locations_keeps_source|].
  apply filter_named_locations_same_source, filter_unnamed_locations_keeps_source.
Qed.

(** X3. A filter that raises has written nothing: the disk is the one it
    started from. *)
Theorem filters_fail_without_writing self filename fs e fs' :
  filter_named_locations self filename fs = (inl e, fs') ∨
  filter_unnamed_locations self filename fs = (inl e, fs') →
  fs' = fs.
Proof.
  intros [Hrun|Hrun].
  - destruct (filter_named_locations_effect self filename fs) as [[e0 He]|[text He]];
      rewrite He in Hrun; [by injection Hrun|discriminate].
  - destruct (filter_unnamed_locations_effect self filename fs) as [[e0 He]|[text He]];
      rewrite He in Hrun; [by injection Hrun|discriminate].
Qed.


Lemma comprehension_kept cond R kept :
  comprehension cond R = inr kept → Forall (λ elem, cond elem = inr true) kept.
Proof.
  revert kept. induction R as [|elem rest IH]; intros kept; simpl.
  - by intros [= <-].
  - destruct (cond elem) as [e|b] eqn:Hcond; simpl; [done|].
    destruct (comprehension cond rest) as [e|kept']; simpl; [done|].
    intros [= <-]. destruct b; [constructor|]; by auto.
Qed.

Lemma filter_const_true {A} (l : list A) : List.filter (λ _, true) l = l.
Proof. induction l; simpl; by f_equal. Qed.

Lemma filter_const_false {A} (l : list A) : List.filter (λ _, false) l = [].
Proof. induction l; simpl; done. Qed.

(** X5. The list a filter keeps is a fixed point of that filter and is
    emptied by the other one: filtering the named elements for named ones
    keeps them all, filtering them for unnamed ones keeps none, and the
    other way round. *)
Theorem kept_elements_pass_again R kept :
  (comprehension named_cond R = inr kept →
   comprehension named_cond kept = inr kept ∧
   comprehension unnamed_cond kept = inr []) ∧
  (comprehension unnamed_cond R = inr kept →
   comprehension unnamed_cond kept = inr kept ∧
   comprehension named_cond kept = inr []).
Proof.
  split; intros Hkept; apply comprehension_kept in Hkept.
  - split.
    + rewrite (comprehension_filter named_cond (λ _, true)); [|done].
      by rewrite filter_const_true.
    + rewrite (comprehension_filter unnamed_cond (λ _, false)).
      * by rewrite filter_const_false.
      * eapply Forall_impl; [exact Hkept|]. intros elem Hc.
        by rewrite unnamed_cond_complement, Hc.
  - split.
    + rewrite (comprehension_filter unnamed_cond (λ _, true)); [|done].
      by rewrite filter_const_true.
    + rewrite (comprehension_filter named_cond (λ _, false)).
      * by rewrite filter_const_false.
      * eapply Forall_impl; [exact Hkept|]. intros elem Hc.
        simpl in Hc. rewrite unnamed_cond_complement in Hc.
        destruct (named_cond elem) as [e|[|]]; simpl in Hc; by simplify_eq.
Qed.

Lemma written_file_is_listed fs d name text :
  ends_with ".json" name = true →
  name ∈ (glob_json (fs_write fs d name text) d).*1.
Proof.
  intros Hjson. unfold fs_write. rewrite glob_json_insert, String.eqb_refl.
  apply list_elem_of_fmap. exists (name, text). split; [done|].
  apply list_elem_of_In, filter_In. split.
  - apply list_elem_of_In, dir_write_elem.
  - done.
Qed.

(** X6. The file name a filter returns is found by [list_filtered_files]
    afterwards, and when the two directories differ [list_raw_files] lists
    what it listed before. *)
Theorem filtered_file_is_listed self filename fs new_filename fs' :
  filter_named_locations self filename fs = (inr new_filename, fs') ∨
  filter_unnamed_locations self filename fs = (inr new_filename, fs') →
  new_filename ∈ list_filtered_files self fs' ∧
  (raw_data_dir self ≠ filtered_data_dir self →
   list_raw_files self fs' = list_raw_files self fs).
Proof.
  intros Hrun.
  assert (∃ text, ends_with ".json" new_filename = true ∧
                  fs' = fs_write fs (filtered_data_dir self) new_filename text)
    as (text & Hjson & ->).
  { destruct Hrun as [Hrun|Hrun].
    - destruct (filter_named_locations_effect self filename fs)
        as [[e He]|[text He]]; rewrite He in Hrun; [discriminate|].
      injection Hrun as <- <-. exists text. split; [|done].
      apply (ends_with_append _ _ "_named_only.json"). by vm_compute.
    - destruct (filter_unnamed_locations_effect self filename fs)
        as [[e He]|[text He]]; rewrite He in Hrun; [discriminate|].
      injection Hrun as <- <-. exists text. split; [|done].
      apply (ends_with_append _ _ "_unnamed_only.json"). by vm_compute. }
  split.
  - by apply written_file_is_listed.
  - intros Hdirs. unfold list_raw_files, fs_write. rewrite glob_json_insert.
    destruct (String.eqb_spec (filtered_data_dir self) (raw_data_dir self)); [|done].
    congruence.
Qed.


(** ** The report of [count_objects] *)

Lemma file_count_nonneg text : (0 ≤ file_count text)%Z.
Proof.
  unfold file_count, count_file.
  destruct (json_load_file text) as [e|data]; simpl; [done|].
  destruct (py_get data "elements" (JArr [])) as [e|elements]; simpl; [done|].
  destruct elements; simpl; lia.
Qed.

Lemma sum_counts_nonneg listing : (0 ≤ sum_counts listing)%Z.
Proof.
  induction listing as [|file rest IH]; simpl; [done|].
  pose proof (file_count_nonneg file.2). lia.
Qed.

(** A turn of the loop returns exactly on the countable texts, and then
    records the count of the file. *)
Lemma count_step_countable c file :
  if countable file.2
  then count_step c file =
         inr {| total_objects := total_objects c + file_count file.2;
                files := <[file.1 := file_count file.2]> (files c) |}
  else ∃ e, count_step c file = inl e.
Proof.
  unfold countable, count_step, file_count, count_file, json_load_file.
  destruct (json_parse file.2) as [data| |]; simpl.
  - destruct data as [| | | | |items|fields]; simpl; try by eexists.
    destruct (dict_lookup "elements" fields) as [elements|]; simpl; [|done].
    destruct elements; simpl; try done; by eexists.
  - by rewrite Z.add_0_r.
  - by eexists.
Qed.

Lemma count_loop_report listing :
  ∀ c c',
    count_loop c listing = inr c' →
    total_objects c' = (total_objects c + sum_counts listing)%Z ∧
    (∀ name, name ∉ listing.*1 → files c' !! name = files c !! name) ∧
    (NoDup listing.*1 →
     ∀ name text, (name, text) ∈ listing → files c' !! name = Some (file_count text)).
Proof.
  induction listing as [|[n t] rest IH]; intros c c'; simpl.
  - intros [= <-]. split; [lia|]. split; [done|]. intros _ name text Hin.
    by apply elem_of_nil in Hin.
  - pose proof (count_step_countable c (n, t)) as Hstep.
    destruct (countable (n, t).2); [|by destruct Hstep as [e ->]].
    rewrite Hstep. simpl. intros Hrun.
    destruct (IH _ _ Hrun) as (Htotal & Hother & Hlisted). simpl in *.
    split; [lia|]. split.
    + intros name Hname. rewrite not_elem_of_cons in Hname.
      destruct Hname as [Hne Hname]. rewrite Hother by done.
      by rewrite lookup_insert_ne.
    + intros Hnodup name text Hin. apply NoDup_cons in Hnodup as [Hfresh Hnodup].
      apply elem_of_cons in Hin as [[= -> ->]|Hin].
      * rewrite Hother by done. apply lookup_insert_eq.
      * by apply Hlisted.
Qed.


(** X7. When [count_objects] returns, each half of its report is the report
    of the [*.json] files of its directory: [total_objects] is the sum of
    the lengths of their "elements" (0 for a file that is not JSON or has
    none), it is not negative, no other name has an entry, and the entry of
    each file is its own count. *)
Theorem count_objects_report self fs c :
  count_objects self fs = inr c →
  reports (glob_json fs (raw_data_dir self)) (raw_data c) ∧
  reports (glob_json fs (filtered_data_dir self)) (filtered_data c).
Proof.
  unfold count_objects. intros Hrun.
  destruct (count_loop no_counts (glob_json fs (raw_data_dir self)))
    as [e|raw] eqn:Hraw; simpl in Hrun; [done|].
  destruct (count_loop no_counts (glob_json fs (filtered_data_dir self)))
    as [e|filtered] eqn:Hfil; simpl in Hrun; [done|].
  injection Hrun as <-. simpl.
  destruct (count_loop_report _ _ _ Hraw) as (Ht1 & Ho1 & Hl1).
  destruct (count_loop_report _ _ _ Hfil) as (Ht2 & Ho2 & Hl2).
  simpl in *. split.
  - split; [lia|]. split.
    { rewrite Ht1. pose proof (sum_counts_nonneg (glob_json fs (raw_data_dir self))). lia. }
    split; [|done]. intros name Hname. by rewrite Ho1.
  - split; [lia|]. split.
    { rewrite Ht2.
      pose proof (sum_counts_nonneg (glob_json fs (filtered_data_dir self))). lia. }
    split; [|done]. intros name Hname. by rewrite Ho2.
Qed.



Lemma glob_json_names_NoDup fs d :
  NoDup (listdir fs d).*1 → NoDup (glob_json fs d).*1.
Proof.
  intros Hnodup. eapply sublist_NoDup; [exact Hnodup|].
  apply fmap_sublist, filter_sublist.
Qed.

Lemma dir_write_NoDup name text d : NoDup d.*1 → NoDup (dir_write name text d).*1.
Proof.
  intros Hnodup. rewrite dir_write_names.
  destruct (bool_decide (name ∈ d.*1)) eqn:Hin; [done|].
  apply bool_decide_eq_false_1 in Hin.
  apply NoDup_app. split; [done|]. split.
  - intros x Hx Hx'. apply list_elem_of_singleton in Hx'. by subst.
  - apply NoDup_singleton.
Qed.

Lemma listdir_write fs d name text :
  listdir (fs_write fs d name text) d = dir_write name text (listdir fs d).
Proof. unfold fs_write, listdir at 1. by rewrite lookup_insert_eq. Qed.

(** X9. Filtering and counting compose: when the dump written by
    [filter_named_locations] reads back as the document dumped, a
    [count_objects] that returns afterwards lists the new file in the
    filtered half of its report with the number of named elements. *)
Theorem filtered_file_is_counted self filename fs text data R version c :
  fs_read fs (raw_data_dir self) filename = Some text →
  json_loads text = Some data →
  py_getitem data "elements" = inr (JArr R) →
  Forall (λ elem, well_formed_element elem = true) R →
  py_get data "version" (JFloat 6 (-1)) = inr version →
  NoDup (listdir fs (filtered_data_dir self)).*1 →
  json_loads
    (json_dumps (Some 2%Z)
       (filtered_header version filename "named_only" (Z.of_nat (length R))
          (List.filter has_name_tag R)))
    = Some (filtered_header version filename "named_only" (Z.of_nat (length R))
              (List.filter has_name_tag R)) →
  count_objects self (filter_named_locations self filename fs).2 = inr c →
  files (filtered_data c) !! (rsplit_dot_head filename +:+ "_named_only.json")
    = Some (Z.of_nat (length (List.filter has_name_tag R))).
Proof.
  intros Hread Hload Hel Hwf Hversion Hnodup Hround Hcount.
  destruct (filter_named_locations_run _ _ _ _ _ _ Hread Hload Hel Hwf)
    as (version' & Hv & Hrun).
  rewrite Hversion in Hv. injection Hv as <-.
  rewrite Hrun in Hcount. simpl in Hcount.
  set (new := rsplit_dot_head filename +:+ "_named_only.json") in *.
  set (out := filtered_header version filename "named_only" (Z.of_nat (length R))
                (List.filter has_name_tag R)) in *.
  set (fs' := fs_write fs (filtered_data_dir self) new (json_dumps (Some 2%Z) out)) in *.
  unfold count_objects in Hcount.
  destruct (count_loop no_counts (glob_json fs' (raw_data_dir self)))
    as [e|raw]; simpl in Hcount; [done|].
  destruct (count_loop no_counts (glob_json fs' (filtered_data_dir self)))
    as [e|filtered] eqn:Hfil; simpl in Hcount; [done|].
  injection Hcount as <-. simpl.
  destruct (count_loop_report _ _ _ Hfil) as (_ & _ & Hlisted).
  rewrite (Hlisted ltac:(apply glob_json_names_NoDup; unfold fs';
                         rewrite listdir_write; by apply dir_write_NoDup)
             new (json_dumps (Some 2%Z) out)).
  - unfold file_count, count_file. by rewrite (json_load_file_parsed _ _ Hround).
  - unfold glob_json, fs'. rewrite listdir_write.
    apply list_elem_of_In, filter_In. split.
    + apply list_elem_of_In, dir_write_elem.
    + apply (ends_with_append _ _ "_named_only.json"). by vm_compute.
Qed.

(** ** The [__main__] block of main.py *)

(** The two filters return or raise together. *)
Lemma filters_return_together self filename fs :
  match (filter_named_locations self filename fs).1 with
  | inr _ => ∃ name, (filter_unnamed_locations self filename fs).1 = inr name
  | inl e => (filter_unnamed_locations self filename fs).1 = inl e
  end.
Proof.
  unfold filter_named_locations, filter_unnamed_locations, bind, load_data, lift.
  destruct (fs_read fs (raw_data_dir self) filename) as [text|]; [|done].
  destruct (json_load_file text) as [e|data]; [done|].
  destruct (py_getitem data "elements") as [e|elements]; [done|].
  destruct (py_len elements) as [e|n]; [done|].
  destruct (py_iter elements) as [e|items]; [done|].
  pose proof (comprehension_complement items) as Hcompl.
  destruct (comprehension named_cond items) as [e|kept].
  - by rewrite Hcompl.
  - destruct Hcompl as [_ ->].
    destruct (py_get data "version" (JFloat 6 (-1))) as [e|version]; [done|].
    by eexists.
Qed.

(** X10. The [__main__] block of main.py writes both filtered files or
    none: either the first filter raises and the disk is left as it was, or
    the named-only and the unnamed-only file of the hospital file are both
    written to "filtered_data" (the count that follows writes nothing,
    whether it raises or not). *)
Theorem main_script_writes_both_or_nothing fs :
  (∃ e, main_script fs = (inl e, fs)) ∨
  (∃ r named_text unnamed_text,
     main_script fs =
       (r,
        fs_write
          (fs_write fs "filtered_data"
             "hospital_northern_europe_20250224_named_only.json" named_text)
          "filtered_data"
          "hospital_northern_europe_20250224_unnamed_only.json" unnamed_text)).
Proof.
  set (src := "hospital_northern_europe_20250224.json").
  pose proof (filters_return_together default_handler src fs) as Htogether.
  unfold main_script, bind. fold src.
  destruct (filter_named_locations_effect default_handler src fs)
    as [[e Hn]|[named_text Hn]]; rewrite Hn in Htogether |- *; [by left; eexists|].
  right. simpl in Htogether. destruct Htogether as [name Hu].
  set (fs1 := fs_write fs (filtered_data_dir default_handler)
                (rsplit_dot_head src +:+ "_named_only.json") named_text).
  assert ((filter_unnamed_locations default_handler src fs1).1 = inr name) as Hu1.
  { rewrite <- Hu. apply filter_unnamed_locations_same_source.
    pose proof (filter_named_locations_keeps_source default_handler src fs) as Hkeep.
    by rewrite Hn in Hkeep. }
  destruct (filter_unnamed_locations_effect default_handler src fs1)
    as [[e He]|[unnamed_text He]]; rewrite He in Hu1 |- *; [done|].
  unfold print_object_counts. by eexists _, named_text, unnamed_text.
Qed.


(** * Further properties of the fetcher *)

(** X11. [get_tag_value] returns its argument for every feature type, the
    six of its table included; [get_tag_key] returns "leisure" for "park",
    "amenity" for the five other types of its table, and its argument for
    every other string. *)
Theorem tag_tables node_type :
  get_tag_value node_type = node_type ∧
  get_tag_key node_type =
    if bool_decide (node_type = "park") then "leisure"
    else if bool_decide
              (node_type ∈ [ "place_of_worship"; "police"; "school"; "hospital";
                             "restaurant" ])
         then "amenity"
         else node_type.
Proof.
  unfold get_tag_value, get_tag_key. split.
  - repeat match goal with
           | |- context [String.eqb node_type ?s] =>
               destruct (String.eqb_spec node_type s) as [->|?]; [done|]
           end.
    done.
  - repeat match goal with
           | |- context [String.eqb node_type ?s] =>
               destruct (String.eqb_spec node_type s) as [->|?]; [done|]
           end.
    rewrite bool_decide_eq_false_2 by done.
    rewrite bool_decide_eq_false_2; [done|].
    intros Hin. repeat (apply elem_of_cons in Hin as [?|Hin]; [done|]).
    by apply elem_of_nil in Hin.
Qed.

(** X12. The region table of [OverpassFetcher]: every configured region has
    four sub-areas, each inside the bounds of the region, no two sharing
    more than a border, and their areas add up to the area of the bounds:
    the sub-areas tile the region. *)
Theorem configured_regions_are_tiled cache_dir area_name a :
  areas_lookup area_name (areas (new_fetcher cache_dir)) = Some a →
  get_subareas (new_fetcher cache_dir) area_name = inr (subareas a) ∧
  length (subareas a) = 4%nat ∧
  forallb (tile_inside (bounds a)) (subareas a) = true ∧
  pairwise_disjoint (subareas a) = true ∧
  foldr (λ t acc, (tile_area t + acc)%Z) 0%Z (subareas a) = tile_area (bounds a).
Proof.
  intros Ha. split; [unfold get_subareas; by rewrite Ha|].
  simpl in Ha.
  repeat (destruct (String.eqb area_name _); [injection Ha as <-; by vm_compute|]).
  done.
Qed.

(** X13. Two edges of [fetch_with_progress]. With [retries] at most 0 the
    loop body never runs: nothing is sent and [None] is returned, no
    exception. With a negative [delay] and at least two attempts allowed, a
    first transport failure is followed by the [ValueError] of
    [time.sleep], raised after that single request. *)
Theorem fetch_with_progress_edges query retries delay w :
  ((retries ≤ 0)%Z →
   fetch_with_progress query retries delay w = (inr JNull, w)) ∧
  ((delay < 0)%Z → (2 ≤ retries)%Z →
   ∀ kind, net w (length (sent w)) query = Failed kind →
   fetch_with_progress query retries delay w =
     (inl (ValueError "sleep length must be non-negative"),
      after_attempts w query 1 0 delay)).
Proof.
  unfold fetch_with_progress. rewrite range_seq. split.
  - intros Hr. by replace (Z.to_nat retries) with 0%nat by lia.
  - intros Hd Hr kind Hkind.
    destruct (Z.to_nat retries) as [|m] eqn:Hm; [lia|]. simpl.
    rewrite (send_request_run _ _ delay), Hkind. simpl.
    destruct (Z.ltb_spec (Z.of_nat 0) (retries - 1)) as [_|?]; [|lia].
    unfold bind, sleep. destruct (Z.ltb_spec delay 0) as [_|?]; [reflexivity|lia].
Qed.


Lemma fetch_subarea_attempts node_type subarea w :
  ∃ n, (1 ≤ n ≤ 3)%nat ∧
    (fetch_subarea node_type subarea w).2 =
      after_attempts w (build_query node_type subarea) n (n - 1) default_delay.
Proof.
  unfold fetch_subarea, fetch_with_progress, bind. rewrite range_seq.
  destruct (fetch_attempts_bound (build_query node_type subarea) default_retries
              default_delay (Z.to_nat default_retries) ltac:(done) 0 w)
    as (n & Hn & Hpos & Hrun); [done|].
  exists n. split.
  { unfold default_retries in Hn, Hpos. lia. }
  rewrite <- Hrun.
  destruct (fetch_attempts _ _ _ _ w) as [[e|data] w']; simpl; [done|].
  unfold lift. by destruct (py_get data "elements" (JArr [])).
Qed.

(** What the loop over the sub-areas does to the world: it sends between
    one and three requests per sub-area, each the query of one of them,
    sleeps at most twice per sub-area, always the default delay, and leaves
    the disk alone. *)
Lemma fetch_subareas_log node_type todo :
  ∀ all_elements w,
    ∃ queries delays,
      (fetch_subareas node_type todo all_elements w).2 =
        {| net := net w; sent := sent w ++ queries;
           slept := slept w ++ delays; disk := disk w |} ∧
      (length todo ≤ length queries ≤ 3 * length todo)%nat ∧
      (length delays ≤ 2 * length todo)%nat ∧
      Forall (λ d, d = default_delay) delays ∧
      Forall (λ q, q ∈ map (build_query node_type) todo) queries.
Proof.
  induction todo as [|subarea rest IH]; intros all_elements w.
  - exists [], []. simpl. rewrite !app_nil_r. by destruct w.
  - destruct (fetch_subarea_attempts node_type subarea w) as (n & Hn & Hst).
    set (q := build_query node_type subarea) in *.
    assert (∃ acc, fetch_subareas node_type (subarea :: rest) all_elements w =
                   fetch_subareas node_type rest acc
                     (after_attempts w q n (n - 1) default_delay)) as [acc ->].
    { simpl. destruct (fetch_subarea node_type subarea w) as [[e|elements] w1];
        simpl in Hst; subst w1; by eexists. }
    destruct (IH acc (after_attempts w q n (n - 1) default_delay))
      as (queries & delays & -> & Hq & Hd & Hdelays & Hqueries).
    exists (replicate n q ++ queries), (replicate (n - 1) default_delay ++ delays).
    simpl. rewrite !app_assoc. split; [done|].
    rewrite !length_app, !length_replicate. split; [lia|]. split; [lia|].
    split.
    + apply Forall_app. split; [|done]. by apply Forall_replicate.
    + apply Forall_app. split.
      * apply Forall_replicate. apply list_elem_of_here.
      * eapply Forall_impl; [exact Hqueries|]. intros x Hx.
        by apply list_elem_of_further.
Qed.

(** X14. The cost of a [fetch_data] for a configured region: it sends at
    most three requests per sub-area and at least one per sub-area on a
    cache miss, none on a cache hit; every request carries the query of one
    of the sub-areas; it sleeps at most twice per sub-area, 5 each time. *)
Theorem fetch_data_request_bound self today node_type area_name w tiles :
  get_subareas self area_name = inr tiles →
  ∃ queries delays,
    sent (fetch_data self today node_type area_name w).2 = sent w ++ queries ∧
    slept (fetch_data self today node_type area_name w).2 = slept w ++ delays ∧
    (length queries ≤ 3 * length tiles)%nat ∧
    (length delays ≤ 2 * length tiles)%nat ∧
    Forall (λ d, d = 5%Z) delays ∧
    Forall (λ q, q ∈ map (build_query node_type) tiles) queries ∧
    match fs_read (disk w) (cache_dir self)
            (cache_file_name node_type area_name today) with
    | Some _ => queries = []
    | None => (length tiles ≤ length queries)%nat
    end.
Proof.
  intros Htiles. unfold fetch_data.
  destruct (fs_read (disk w) (cache_dir self)
              (cache_file_name node_type area_name today)) as [text|].
  - exists [], []. simpl. rewrite !app_nil_r. repeat split; try done; lia.
  - unfold bind, lift. rewrite Htiles.
    destruct (fetch_subareas_log node_type tiles [] w)
      as (queries & delays & Hst & Hq & Hd & Hdelays & Hqueries).
    destruct (fetch_subareas node_type tiles [] w) as [[e|found] w'];
      simpl in Hst; subst w'; simpl; exists queries, delays;
      repeat split; try done; lia.
Qed.


(** X16. When the service answers every sub-area at the first attempt, a
    [fetch_data] on a cache miss sends exactly one request per sub-area, in
    the order of the configuration, never sleeps, and its document holds
    the elements of the bodies one after the other, in that order and with
    nothing removed (an element sent for two sub-areas is there twice). *)
Theorem fetch_data_concatenates self today node_type area_name w tiles found :
  fs_read (disk w) (cache_dir self) (cache_file_name node_type area_name today) = None →
  get_subareas self area_name = inr tiles →
  answered (net w) (length (sent w)) node_type tiles found →
  let text :=
    json_dumps None
      (JObj [ ("version", JFloat 6 (-1));
              ("generator", JStr "Overpass API");
              ("elements", JArr (concat found)) ]) in
  fetch_data self today node_type area_name w =
    (inr text,
     {| net := net w;
        sent := sent w ++ map (build_query node_type) tiles;
        slept := slept w;
        disk := fs_write (disk w) (cache_dir self)
                  (cache_file_name node_type area_name today) text |}).
Proof.
  intros Hmiss Htiles Hans. simpl.
  rewrite (fetch_data_miss _ _ _ _ _ _ _ _ Hmiss Htiles
             (fetch_subareas_answered _ _ _ _ _ Hans)).
  done.
Qed.

Lemma fetch_subareas_all_fail node_type tiles :
  ∀ all_elements w,
    (∀ n q, ∃ kind, net w n q = Failed kind) →
    ∃ w',
      fetch_subareas node_type tiles all_elements w = (inr all_elements, w') ∧
      net w' = net w ∧ disk w' = disk w ∧
      length (sent w') = (length (sent w) + 3 * length tiles)%nat ∧
      length (slept w') = (length (slept w) + 2 * length tiles)%nat.
Proof.
  induction tiles as [|subarea rest IH]; intros all_elements w Hdown.
  - exists w. simpl. repeat split; try done; lia.
  - destruct (fetch_attempts_exhausted (build_query node_type subarea)
                default_retries default_delay 2 ltac:(done) 0 w ltac:(done))
      as (kind & _ & Hrun).
    { intros i _. apply Hdown. }
    set (w1 := after_attempts w (build_query node_type subarea) 3 2 default_delay)
      in *.
    destruct (IH all_elements w1 Hdown) as (w' & Hloop & Hnet & Hdisk & Hs & Hd).
    exists w'. split.
    { cbn [fetch_subareas]. unfold fetch_subarea, fetch_with_progress, bind.
      rewrite range_seq. change (Z.to_nat default_retries) with 3%nat.
      rewrite Hrun. simpl. exact Hloop. }
    split; [done|]. split; [done|].
    rewrite Hs, Hd. unfold w1. simpl. rewrite !length_app. simpl. lia.
Qed.

(** X17. A day the service is down is cached as an empty day. When every
    request fails, a [fetch_data] on a cache miss still returns normally,
    after three requests and two delays for each sub-area, with the
    document of no elements, and writes it to the cache file; from then
    on, whatever the service would answer, the same call on the same day
    returns that empty document and sends nothing. *)
Theorem outage_is_cached self today node_type area_name w tiles :
  fs_read (disk w) (cache_dir self) (cache_file_name node_type area_name today) = None →
  get_subareas self area_name = inr tiles →
  (∀ n q, ∃ kind, net w n q = Failed kind) →
  let empty := json_dumps None (combined_data []) in
  ∃ w1,
    fetch_data self today node_type area_name w = (inr empty, w1) ∧
    length (sent w1) = (length (sent w) + 3 * length tiles)%nat ∧
    length (slept w1) = (length (slept w) + 2 * length tiles)%nat ∧
    ∀ w2, disk w2 = disk w1 →
          fetch_data self today node_type area_name w2 = (inr empty, w2).
Proof.
  intros Hmiss Htiles Hdown. simpl.
  destruct (fetch_subareas_all_fail node_type tiles [] w Hdown)
    as (w' & Hloop & Hnet & Hdisk & Hs & Hd).
  eexists. split.
  { apply (fetch_data_miss _ _ _ _ _ _ _ _ Hmiss Htiles Hloop). }
  simpl. split; [done|]. split; [done|].
  intros w2 Hw2. unfold fetch_data. rewrite Hw2. simpl. by rewrite fs_read_write.
Qed.

(** X18. [fetch_data] touches one file at most: a file that is not the
    cache file of the call reads the same afterwards, the service is the
    same, and when the cache file exists already the whole world is left as
    it was. *)
Theorem fetch_data_writes_only_cache_file self today node_type area_name w :
  let w' := (fetch_data self today node_type area_name w).2 in
  net w' = net w ∧
  (∀ d name,
     d ≠ cache_dir self ∨ name ≠ cache_file_name node_type area_name today →
     fs_read (disk w') d name = fs_read (disk w) d name) ∧
  (is_Some (fs_read (disk w) (cache_dir self)
              (cache_file_name node_type area_name today)) → w' = w).
Proof.
  simpl. unfold fetch_data.
  destruct (fs_read (disk w) (cache_dir self)
              (cache_file_name node_type area_name today)) as [text|]; [done|].
  unfold bind, lift.
  destruct (get_subareas self area_name) as [e|tiles]; simpl.
  { split; [done|]. split; [done|]. by intros [? ?]. }
  destruct (fetch_subareas_total node_type tiles [] w)
    as (found & w1 & -> & Hnet & Hdisk).
  simpl. split; [done|]. split.
  - intros d name Hne. rewrite fs_read_write_ne by done. by rewrite Hdisk.
  - by intros [? ?].
Qed.

(** X19. A sub-area whose first reply is a body that cannot be used (it is
    not JSON, or not an object, or its "elements" cannot be iterated) is
    dropped after that single request, without any delay: the loop goes on
    with the next sub-area and with what it had accumulated. *)
Theorem unusable_body_drops_subarea node_type subarea rest all_elements w content e :
  net w (length (sent w)) (build_query node_type subarea) = Body content →
  tile_elements content = inl e →
  fetch_subareas node_type (subarea :: rest) all_elements w =
    fetch_subareas node_type rest all_elements
      (after_attempts w (build_query node_type subarea) 1 0 default_delay).
Proof.
  intros Hbody Herr. cbn [fetch_subareas].
  unfold fetch_subarea, fetch_with_progress, bind. rewrite range_seq.
  rewrite (fetch_attempts_body (build_query node_type subarea) default_retries
             default_delay 0 ltac:(done) 0 (Z.to_nat default_retries) w content);
    [|done|unfold default_retries; lia|intros i Hi; lia|by rewrite Nat.add_0_r].
  unfold tile_elements in Herr.
  destruct (json_load content) as [e0|data]; simpl in Herr; [done|].
  unfold lift.
  destruct (py_get data "elements" (JArr [])) as [e0|els]; simpl in Herr; [done|].
  by rewrite Herr.
Qed.

End Program.

(** * Examples *)

(** The five-element file of which three elements are named. *)
Lemma named_unnamed_partition_five :
  ∃ named unnamed : list json,
    comprehension named_cond five_elements = inr named ∧
    comprehension unnamed_cond five_elements = inr unnamed ∧
    length named = 3%nat ∧
    length unnamed = 2%nat ∧
    named ++ unnamed ≡ₚ five_elements ∧
    (∀ elem, elem ∈ named → elem ∉ unnamed) ∧
    sublist named five_elements ∧
    sublist unnamed five_elements.
Proof.
  pose proof (named_unnamed_partition sample_parse sample_dumps default_handler
                "five.json" raw_disk (show_json five_doc) five_doc five_elements
                eq_refl eq_refl eq_refl) as Hpart.
  change (comprehension named_cond five_elements)
    with (inr (A := exn) (List.filter keeps five_elements)) in Hpart.
  destruct Hpart as (unnamed & _ & _ & _ & _ & Hunnamed & _
                     & Hperm & Hdisj & Hn & Hu & _).
  exists (List.filter keeps five_elements), unnamed.
  split; [reflexivity|]. split; [exact Hunnamed|].
  split; [reflexivity|]. split.
  { vm_compute in Hunnamed. by injection Hunnamed as <-. }
  repeat split; assumption.
Defined.

Lemma filter_named_five :
  filter_named_locations sample_parse sample_dumps default_handler "five.json" raw_disk =
    (inr "five_named_only.json",
     fs_write raw_disk "filtered_data" "five_named_only.json"
       (sample_dumps (Some 2%Z)
          (JObj [ ("version", JFloat 6 (-1));
                  ("generator", JStr "Filtered Data");
                  ("original_file", JStr "five.json");
                  ("filter_type", JStr "named_only");
                  ("original_count", JInt 5);
                  ("filtered_count", JInt 3);
                  ("elements",
                   JArr [ node 1 (Some [ ("name", JStr "Tuomiokirkko");
                                         ("religion", JStr "christian") ]);
                          node 3 (Some [ ("name", JStr "Temppeliaukio") ]);
                          node 5 (Some [ ("name", JStr "Uspenski") ]) ]) ]))).
Proof.
  destruct (filters_keep_named_and_record_counts sample_parse sample_dumps
              default_handler "five.json" raw_disk (show_json five_doc) five_doc
              five_elements eq_refl eq_refl eq_refl ltac:(repeat constructor))
    as (version & Hv & Hn & _).
  injection Hv as <-. exact Hn.
Defined.




Lemma count_objects_header_only_file :
  count_objects sample_parse default_handler headers_disk =
    inr {| raw_data :=
             {| total_objects := 3;
                files := <["header.json" := 0%Z]> (<["three.json" := 3%Z]> ∅) |};
           filtered_data := no_counts |}.
Proof.
  destruct (object_without_elements_counts_zero sample_parse default_handler
              headers_disk "data_cache" [ ("three.json", show_json three_doc) ]
              "header.json" (show_json no_elements_doc)
              [ ("version", JFloat 6 (-1)); ("generator", JStr "Overpass API") ] [])
    as (_ & Heq & _).
  - reflexivity.
  - apply (bool_decide_unpack _). vm_compute. exact I.
  - reflexivity.
  - reflexivity.
  - reflexivity.
  - rewrite Heq. vm_compute. reflexivity.
Defined.

(** Failures on attempts 1 and 2, success on attempt 3. *)
Lemma fetch_succeeds_third_time :
  fetch_with_progress sample_parse "q" 3 5 third_time_world =
    (inr (tile_doc [3]%Z),
     {| net := third_time_net; sent := [ "q"; "q"; "q" ]; slept := [ 5; 5 ]%Z;
        disk := ∅ |}).
Proof.
  apply (proj1 (proj2 (retry_policy sample_parse "q" 3 5 third_time_world
                         ltac:(lia)))
           2%nat (show_json (tile_doc [3]%Z)) (tile_doc [3]%Z)).
  - lia.
  - intros i Hi. exists "Timeout". by destruct i as [|[|i]]; [| |lia].
  - reflexivity.
  - reflexivity.
Defined.

(** C4, against the claim: a body that is not JSON ends the fetch at the
    first attempt, with one request sent and no delay, where three transport
    failures take three requests and two delays. *)
Lemma malformed_body_is_not_retried_like_a_failure :
  fetch_with_progress sample_parse "q" 3 5 busy_world =
    (inl JSONDecodeError,
     {| net := net busy_world; sent := [ "q" ]; slept := []; disk := ∅ |}) ∧
  fetch_with_progress sample_parse "q" 3 5 down_world =
    (inl (RequestException "ConnectionError"),
     {| net := net down_world; sent := [ "q"; "q"; "q" ]; slept := [ 5; 5 ]%Z;
        disk := ∅ |}).
Proof. split; reflexivity. Qed.

Lemma malformed_body_first_attempt :
  fetch_with_progress sample_parse "q" 3 5 busy_world =
    (inl JSONDecodeError,
     {| net := net busy_world; sent := [ "q" ]; slept := []; disk := ∅ |}).
Proof.
  apply (malformed_body_not_retried sample_parse "q" 3 5 busy_world 0
           "<html>busy</html>").
  - lia.
  - lia.
  - intros i Hi. lia.
  - reflexivity.
  - reflexivity.
Defined.

(** Northern Europe with the second sub-area down: the document holds the
    elements of the first, third and fourth sub-areas, in that order. *)
Lemma fetch_data_skips_second_tile :
  (fetch_data sample_parse sample_dumps (new_fetcher "data_cache") "20250224"
     "hospital" "northern_europe" flaky_world).1 =
    inr (sample_dumps None
           (JObj [ ("version", JFloat 6 (-1));
                   ("generator", JStr "Overpass API");
                   ("elements",
                    JArr [ node 1 None; node 2 None; node 3 None; node 4 None;
                           node 5 None ]) ])).
Proof.
  destruct (failed_tile_is_skipped sample_parse sample_dumps
              (new_fetcher "data_cache") "20250224" "hospital" "northern_europe"
              flaky_world
              [ (55, 4, 63, 18)%Z ] (63, 4, 71, 18)%Z
              [ (55, 18, 63, 32)%Z; (63, 18, 71, 32)%Z ]
              [ node 1 None; node 2 None ]
              {| net := flaky_net; sent := [ build_query "hospital" (55, 4, 63, 18)%Z ];
                 slept := []; disk := ∅ |})
    as (elements_after & w3 & Hafter & Hfetch & _).
  - reflexivity.
  - reflexivity.
  - vm_compute. reflexivity.
  - intros i Hi. exists "ConnectionError". by destruct i as [|[|[|i]]]; [| | |lia].
  - vm_compute in Hafter. injection Hafter as <- <-.
    rewrite Hfetch. reflexivity.
Defined.




(** Ten elements, four of them with a non-empty name: no statistics come
    out, the call raises. *)
Lemma analyze_example_ten :
  analyze_example sample_parse "ten.json" raw_disk =
    (inl (AttributeError "get_statistics"), raw_disk).
Proof.
  exact (analyze_example_raises sample_parse "ten.json" raw_disk
           (show_json ten_doc) ten_doc eq_refl eq_refl).
Defined.


(** A few values of the string helpers and of the query template. *)
Example rsplit_dot_head_values :
  rsplit_dot_head "hospital_northern_europe_20250224.json"
    = "hospital_northern_europe_20250224" ∧
  rsplit_dot_head "a.b.json" = "a.b" ∧
  rsplit_dot_head "plain" = "plain".
Proof. repeat split. Qed.

Example glob_json_values :
  list_raw_files default_handler
    (<["data_cache" := [ ("a.json", "{}"); ("notes.txt", "{}"); ("b.json", "[]") ]]> ∅)
    = [ "a.json"; "b.json" ].
Proof. reflexivity. Qed.

Example build_query_hospital :
  build_query "hospital" (35, -10, 40, 9)%Z =
    newline +:+
    "            [out:json][timeout:300];" +:+ newline +:+
    "            (" +:+ newline +:+
    "              node[" +:+ dquote +:+ "amenity" +:+ dquote +:+ "="
      +:+ dquote +:+ "hospital" +:+ dquote +:+ "]" +:+ newline +:+
    "                (35.0,-10.0,40.0,9.0);" +:+ newline +:+
    "              way[" +:+ dquote +:+ "amenity" +:+ dquote +:+ "="
      +:+ dquote +:+ "hospital" +:+ dquote +:+ "]" +:+ newline +:+
    "                (35.0,-10.0,40.0,9.0);" +:+ newline +:+
    "              relation[" +:+ dquote +:+ "amenity" +:+ dquote +:+ "="
      +:+ dquote +:+ "hospital" +:+ dquote +:+ "]" +:+ newline +:+
    "                (35.0,-10.0,40.0,9.0);" +:+ newline +:+
    "            );" +:+ newline +:+
    "            out body;" +:+ newline +:+
    "            >;" +:+ newline +:+
    "            out skel qt;" +:+ newline +:+
    "        ".
Proof. reflexivity. Qed.

(** An element whose "tags" is not a mapping: the string "name" passes the
    test of the named filter, a number makes it raise. *)
Example named_cond_on_odd_tags :
  named_cond (JObj [ ("tags", JStr "name") ]) = inr true ∧
  named_cond (JObj [ ("tags", JInt 5) ]) = inl TypeError ∧
  unnamed_cond (JObj [ ("tags", JInt 5) ]) = inl TypeError ∧
  named_cond (JInt 5) = inl TypeError.
Proof. repeat split. Qed.

(** A file that is valid JSON but not an object makes the count raise: only
    [json.JSONDecodeError] is caught. *)
Example count_objects_on_a_list_file :
  count_objects (λ text, if String.eqb text "[]" then Parsed (JArr []) else NotJSON)
    default_handler (<["data_cache" := [ ("list.json", "[]") ]]> ∅)
    = inl (AttributeError "get").
Proof. reflexivity. Qed.


(** * Examples for the further properties *)

(** A number among the elements: the filter raises on it and writes nothing. *)
Lemma filter_fails_on_odd_file :
  filter_named_locations more_parse sample_dumps default_handler "odd.json" odd_disk
    = (inl TypeError, odd_disk) ∧
  odd_disk = odd_disk.
Proof.
  split; [reflexivity|].
  apply (filters_fail_without_writing more_parse sample_dumps default_handler
           "odd.json" odd_disk TypeError odd_disk).
  left. reflexivity.
Defined.


Lemma named_of_five_pass_again :
  let named := [ node 1 (Some [ ("name", JStr "Tuomiokirkko");
                                ("religion", JStr "christian") ]);
                 node 3 (Some [ ("name", JStr "Temppeliaukio") ]);
                 node 5 (Some [ ("name", JStr "Uspenski") ]) ] in
  comprehension named_cond named = inr named ∧
  comprehension unnamed_cond named = inr [].
Proof.
  apply (proj1 (kept_elements_pass_again five_elements _)). reflexivity.
Defined.

Lemma five_named_only_is_listed :
  "five_named_only.json"
    ∈ list_filtered_files default_handler
        (filter_named_locations sample_parse sample_dumps default_handler
           "five.json" raw_disk).2 ∧
  list_raw_files default_handler
    (filter_named_locations sample_parse sample_dumps default_handler
       "five.json" raw_disk).2
    = [ "five.json"; "ten.json" ].
Proof.
  destruct (filtered_file_is_listed sample_parse sample_dumps default_handler
              "five.json" raw_disk "five_named_only.json"
              (filter_named_locations sample_parse sample_dumps default_handler
                 "five.json" raw_disk).2) as [Hlisted Hraw].
  - left. reflexivity.
  - split; [exact Hlisted|]. rewrite Hraw; [reflexivity|discriminate].
Defined.

Lemma report_of_broken_disk :
  reports sample_parse (glob_json broken_disk "data_cache")
    {| total_objects := 3;
       files := <["broken.json" := 0%Z]> (<["three.json" := 3%Z]> ∅) |} ∧
  reports sample_parse (glob_json broken_disk "filtered_data") no_counts.
Proof.
  apply (count_objects_report sample_parse default_handler broken_disk
           {| raw_data :=
                {| total_objects := 3;
                   files := <["broken.json" := 0%Z]> (<["three.json" := 3%Z]> ∅) |};
              filtered_data := no_counts |}).
  vm_compute. reflexivity.
Defined.

(** Filter the five-element file, then count: the new file is listed with
    its three named elements. *)
Lemma five_named_only_is_counted :
  files (filtered_data
           {| raw_data :=
                {| total_objects := 15;
                   files := <["ten.json" := 10%Z]> (<["five.json" := 5%Z]> ∅) |};
              filtered_data :=
                {| total_objects := 3;
                   files := <["five_named_only.json" := 3%Z]> ∅ |} |})
    !! "five_named_only.json" = Some 3%Z.
Proof.
  apply (filtered_file_is_counted more_parse sample_dumps default_handler
           "five.json" raw_disk (show_json five_doc) five_doc five_elements
           (JFloat 6 (-1))).
  - reflexivity.
  - reflexivity.
  - reflexivity.
  - repeat constructor.
  - reflexivity.
  - vm_compute. constructor.
  - reflexivity.
  - vm_compute. reflexivity.
Defined.

Lemma central_europe_is_tiled :
  get_subareas (new_fetcher "data_cache") "central_europe" =
    inr [ (45, 6, 50, 15); (50, 6, 55, 15); (45, 15, 50, 24); (50, 15, 55, 24) ]%Z ∧
  foldr (λ t acc, (tile_area t + acc)%Z) 0%Z
    [ (45, 6, 50, 15); (50, 6, 55, 15); (45, 15, 50, 24); (50, 15, 55, 24) ]%Z
    = 180%Z.
Proof.
  destruct (configured_regions_are_tiled "data_cache" "central_europe"
              {| bounds := (45, 6, 55, 24)%Z;
                 subareas := [ (45, 6, 50, 15); (50, 6, 55, 15);
                               (45, 15, 50, 24); (50, 15, 55, 24) ]%Z |}
              eq_refl) as (Hsub & _ & _ & _ & Harea).
  split; [exact Hsub|exact Harea].
Defined.

Lemma no_attempt_allowed :
  fetch_with_progress sample_parse "q" 0 5 down_world = (inr JNull, down_world).
Proof.
  apply (proj1 (fetch_with_progress_edges sample_parse "q" 0 5 down_world)). lia.
Defined.

Lemma flaky_fetch_cost :
  ∃ queries delays,
    sent (fetch_data sample_parse sample_dumps (new_fetcher "data_cache") "20250224"
            "hospital" "northern_europe" flaky_world).2 = queries ∧
    slept (fetch_data sample_parse sample_dumps (new_fetcher "data_cache") "20250224"
             "hospital" "northern_europe" flaky_world).2 = delays ∧
    length queries = 6%nat ∧ delays = [ 5; 5 ]%Z.
Proof.
  destruct (fetch_data_request_bound sample_parse sample_dumps
              (new_fetcher "data_cache") "20250224" "hospital" "northern_europe"
              flaky_world
              [ (55, 4, 63, 18); (63, 4, 71, 18); (55, 18, 63, 32);
                (63, 18, 71, 32) ]%Z eq_refl)
    as (queries & delays & Hq & Hd & _).
  exists queries, delays. split; [exact Hq|]. split; [exact Hd|].
  vm_compute in Hq, Hd. subst. split; reflexivity.
Defined.

(** Four sub-areas answered with the same two elements: four requests, no
    delay, eight elements. *)
Lemma steady_fetch_concatenates :
  (fetch_data sample_parse sample_dumps (new_fetcher "data_cache") "20250224"
     "hospital" "northern_europe" steady_world).1 =
    inr (sample_dumps None
           (JObj [ ("version", JFloat 6 (-1));
                   ("generator", JStr "Overpass API");
                   ("elements",
                    JArr [ node 1 None; node 2 None; node 1 None; node 2 None;
                           node 1 None; node 2 None; node 1 None; node 2 None ]) ])) ∧
  length (sent (fetch_data sample_parse sample_dumps (new_fetcher "data_cache")
                  "20250224" "hospital" "northern_europe" steady_world).2) = 4%nat.
Proof.
  rewrite (fetch_data_concatenates sample_parse sample_dumps
             (new_fetcher "data_cache") "20250224" "hospital" "northern_europe"
             steady_world
             [ (55, 4, 63, 18); (63, 4, 71, 18); (55, 18, 63, 32); (63, 18, 71, 32) ]%Z
             (replicate 4 [ node 1 None; node 2 None ])).
  - split; reflexivity.
  - reflexivity.
  - reflexivity.
  - repeat split; eexists; split; reflexivity.
Defined.

Lemma outage_of_down_world :
  ∃ w1,
    fetch_data sample_parse sample_dumps (new_fetcher "data_cache") "20250224"
      "hospital" "northern_europe" down_world
      = (inr (sample_dumps None (combined_data [])), w1) ∧
    length (sent w1) = 12%nat ∧
    length (slept w1) = 8%nat ∧
    fetch_data sample_parse sample_dumps (new_fetcher "data_cache") "20250224"
      "hospital" "northern_europe"
      {| net := net steady_world; sent := []; slept := []; disk := disk w1 |}
      = (inr (sample_dumps None (combined_data [])),
         {| net := net steady_world; sent := []; slept := []; disk := disk w1 |}).
Proof.
  destruct (outage_is_cached sample_parse sample_dumps (new_fetcher "data_cache")
              "20250224" "hospital" "northern_europe" down_world
              [ (55, 4, 63, 18); (63, 4, 71, 18); (55, 18, 63, 32);
                (63, 18, 71, 32) ]%Z)
    as (w1 & Hrun & Hsent & Hslept & Hlater).
  - reflexivity.
  - reflexivity.
  - intros n q. by eexists.
  - exists w1. split; [exact Hrun|]. split; [exact Hsent|]. split; [exact Hslept|].
    by apply Hlater.
Defined.

Lemma busy_subarea_is_dropped :
  fetch_subareas sample_parse "hospital" [ (55, 4, 63, 18)%Z ] [] busy_world =
    (inr [],
     {| net := net busy_world; sent := [ build_query "hospital" (55, 4, 63, 18)%Z ];
        slept := []; disk := ∅ |}).
Proof.
  rewrite (unusable_body_drops_subarea sample_parse "hospital" (55, 4, 63, 18)%Z []
             [] busy_world "<html>busy</html>" JSONDecodeError).
  - reflexivity.
  - reflexivity.
  - reflexivity.
Defined.
